(** * safe_subprocess: bounded execution of a child process

    A shallow embedding of [src/data/safe_subprocess.py].  The Python
    function [run] talks to the operating system (process creation, pipes,
    /proc, the clock); here everything the operating system answers is
    collected in a [World] that [run] consults, and everything [run] asks of
    the child process is logged as a list of [Action]s.

    Conventions of the embedding:
    - Python [int] is [Z]; [//] is [Z.div]; [len] is [Z.of_nat (length _)].
    - Python [bytes] is [list byte]; [str] is the list of its code points.
    - Python [float] values are represented by exact rationals ([Q]), and
      the float [-0.0] by a value of its own.  The only float arithmetic of
      [run] that the theorems below evaluate is carried out on the value
      zero, where binary floating point is exact.
    - A raised exception is the constructor [Raised]; an unbound local
      variable is [None] in an outer [option].
    - A process that sends SIGKILL to its own process group does not get
      to its next statement: that end of a call is [CallerKilled]. *)

From Stdlib Require Import ZArith List Bool Lia QArith Qround String.
From Stdlib Require Import Permutation.
From Stdlib.Strings Require Import Byte.
Import ListNotations.
Local Open Scope Z_scope.

(** ** Python values that occur in the result dictionary *)

Definition bytes := list byte.
Definition pystr := list Z.

Inductive PyVal :=
| VBool (b : bool)
| VInt (z : Z)
| VFloat (q : Q)
| VNegZero
| VStr (s : pystr)
| VArgs (l : list string).

Definition Dict := list (string * PyVal).

Fixpoint dict_get (k : string) (d : Dict) : option PyVal :=
  match d with
  | [] => None
  | (k', v) :: d' => if String.eqb k k' then Some v else dict_get k d'
  end.

Definition dict_keys (d : Dict) : list string := map fst d.

Inductive PyExn :=
| FileNotFoundError
| PermissionError
| SubprocessError
| UnicodeDecodeError
| UnboundLocalError (var : string).

(** ** Rounding: [round(x, 2)] *)

Definition round_half_even (q : Q) : Z :=
  let f := Qfloor q in
  match Qcompare (q - inject_Z f) (1 # 2) with
  | Lt => f
  | Gt => f + 1
  | Eq => if Z.even f then f else f + 1
  end.

Definition round2 (q : Q) : Q :=
  Qred (inject_Z (round_half_even (q * 100)) / 100).

(** [round] keeps an [int] an [int], and the sign of a float: what is
    below zero and rounds to zero is [-0.0]. *)
Definition py_round2 (v : PyVal) : PyVal :=
  match v with
  | VFloat q =>
    if negb (Qle_bool 0 q) && Qeq_bool (round2 q) 0
    then VNegZero
    else VFloat (round2 q)
  | other => other
  end.

(** [a / b] on two [int]s, [b] not zero: a float, and [-0.0] for zero
    over a negative number. *)
Definition py_truediv (a b : Z) : PyVal :=
  if (a =? 0) && (b <? 0) then VNegZero
  else VFloat (inject_Z a / inject_Z b).

(** [x * k] for a float [x] and a positive [int] [k]. *)
Definition py_mul_pos (x : PyVal) (k : positive) : PyVal :=
  match x with
  | VFloat q => VFloat (q * inject_Z (Zpos k))
  | other => other
  end.

(** Numeric reading of a result field. *)
Definition num_value (v : PyVal) : option Q :=
  match v with
  | VInt z => Some (inject_Z z)
  | VFloat q => Some q
  | VNegZero => Some 0%Q
  | _ => None
  end.

(** ** The codec: [bytes.decode("utf-8", errors=...)]

    The decoder of the Python runtime, by maximal invalid subparts: an
    ill-formed sequence is reported from its lead byte up to, and not
    including, the first byte that cannot continue it. *)

Inductive ErrorsMode := Strict | Ignore | Replace.

Definition byte_val (b : byte) : Z := Z.of_N (Byte.to_N b).

Definition is_cont (b : byte) : bool :=
  (0x80 <=? byte_val b) && (byte_val b <=? 0xBF).

Definition in_range (lo hi : Z) (b : byte) : bool :=
  (lo <=? byte_val b) && (byte_val b <=? hi).

(** Admissible second byte after a three-byte lead. *)
Definition second_ok3 (c0 : Z) (b : byte) : bool :=
  if c0 =? 0xE0 then in_range 0xA0 0xBF b
  else if c0 =? 0xED then in_range 0x80 0x9F b
  else is_cont b.

(** Admissible second byte after a four-byte lead. *)
Definition second_ok4 (c0 : Z) (b : byte) : bool :=
  if c0 =? 0xF0 then in_range 0x90 0xBF b
  else if c0 =? 0xF4 then in_range 0x80 0x8F b
  else is_cont b.

Definition emit (c : Z) (rest : option pystr) : option pystr :=
  option_map (cons c) rest.

Definition REPLACEMENT_CHARACTER : Z := 0xFFFD.

(** What the error handler does with one ill-formed subsequence. *)
Definition on_error (m : ErrorsMode) (rest : option pystr) : option pystr :=
  match m with
  | Strict => None
  | Ignore => rest
  | Replace => emit REPLACEMENT_CHARACTER rest
  end.

Definition low6 (b : byte) : Z := Z.land (byte_val b) 0x3F.

Fixpoint decode_utf8 (m : ErrorsMode) (bs : bytes) : option pystr :=
  match bs with
  | [] => Some []
  | b0 :: r0 =>
    let c0 := byte_val b0 in
    if c0 <? 0x80 then emit c0 (decode_utf8 m r0)
    else if c0 <? 0xC2 then on_error m (decode_utf8 m r0)
    else if c0 <? 0xE0 then
      match r0 with
      | [] => on_error m (Some [])
      | b1 :: r1 =>
        if is_cont b1
        then emit (Z.shiftl (Z.land c0 0x1F) 6 + low6 b1) (decode_utf8 m r1)
        else on_error m (decode_utf8 m r0)
      end
    else if c0 <? 0xF0 then
      match r0 with
      | [] => on_error m (Some [])
      | b1 :: r1 =>
        if second_ok3 c0 b1 then
          match r1 with
          | [] => on_error m (Some [])
          | b2 :: r2 =>
            if is_cont b2
            then emit (Z.shiftl (Z.land c0 0x0F) 12
                       + Z.shiftl (low6 b1) 6 + low6 b2)
                      (decode_utf8 m r2)
            else on_error m (decode_utf8 m r1)
          end
        else on_error m (decode_utf8 m r0)
      end
    else if c0 <? 0xF5 then
      match r0 with
      | [] => on_error m (Some [])
      | b1 :: r1 =>
        if second_ok4 c0 b1 then
          match r1 with
          | [] => on_error m (Some [])
          | b2 :: r2 =>
            if is_cont b2 then
              match r2 with
              | [] => on_error m (Some [])
              | b3 :: r3 =>
                if is_cont b3
                then emit (Z.shiftl (Z.land c0 0x07) 18
                           + Z.shiftl (low6 b1) 12
                           + Z.shiftl (low6 b2) 6 + low6 b3)
                          (decode_utf8 m r3)
                else on_error m (decode_utf8 m r2)
              end
            else on_error m (decode_utf8 m r1)
          end
        else on_error m (decode_utf8 m r0)
      end
    else on_error m (decode_utf8 m r0)
  end.

(** ** Module constants and the host *)

Definition MAX_BYTES_PER_READ : nat := 1024.

(** [os.name] *)
Inductive OsName := Posix | Nt | Java.

Definition is_posix (o : OsName) : bool :=
  match o with Posix => true | _ => false end.

Definition is_nt (o : OsName) : bool :=
  match o with Nt => true | _ => false end.

(** What the interpreter finds on the host when the module is imported.
    [SC_CLK_TCK] and [CPU_COUNT] are positive: the first is either the
    kernel's answer or 100, the second is [os.cpu_count() or 1]. *)
Record Host := {
  os_name : OsName;
  has_getpgid : bool;
  has_CREATE_NEW_PROCESS_GROUP : bool;
  SC_CLK_TCK : positive;
  CPU_COUNT : positive
}.

Definition Env := list (string * string).

(** The constants imported from [env], which is not part of the sources
    at hand; they are parameters of everything below. *)
Record Config := {
  SANDBOX_UID : option Z;
  SANDBOX_GID : option Z;
  ENV : Env
}.

(** ** get_system_cpu

    [proc_stat] is the first line of /proc/stat after the [cpu] label,
    or [None] when the file is absent or does not parse. *)
Definition sum_Z (l : list Z) : Z := fold_right Z.add 0 l.

Definition get_system_cpu (o : OsName) (proc_stat : option (list Z)) : Z :=
  if negb (is_posix o) then 0
  else match proc_stat with
       | None => 0
       | Some cpu_total => sum_Z cpu_total
       end.

(** ** get_process_cpu_mem *)

Inductive MemUnit := kB | mB | gB | NoUnit.

(** One process of the tree, as the sampler reads it: the four numbers
    [vals[13:17]] of the whitespace-split /proc/<pid>/stat (a position
    that the split leaves empty counting 0), and the VmPeak line of
    /proc/<pid>/status, if any.  The four are the kernel's utime, stime,
    cutime and cstime when the command name has no blank in it; a blank
    in the name moves every later field one position on, and the code
    takes what is at the positions. *)
Record ProcStat := {
  utime : Z;
  stime : Z;
  cutime : Z;
  cstime : Z;
  VmPeak : option (Z * MemUnit)
}.

(** What one look at the process tree finds: the resident set size of the
    parent and the stat of the parent and of each descendant. *)
Record Snapshot := {
  rss : Z;
  all_processes : list ProcStat
}.

Definition stat_ticks (p : ProcStat) : Z :=
  sum_Z [utime p; stime p; cutime p; cstime p].

Definition vm_peak_kb (p : ProcStat) : Z :=
  match VmPeak p with
  | None => 0
  | Some (n, kB) => n
  | Some (n, mB) => n * 1024
  | Some (n, gB) => n * 1024 * 1024
  | Some (n, NoUnit) => n
  end.

(** [obs = None] stands for any exception inside the [try]. *)
Definition get_process_cpu_mem (o : OsName) (obs : option Snapshot) : Z * Z :=
  match obs with
  | None => (0, 0)
  | Some s =>
    if negb (is_posix o) then (0, rss s / 1024)
    else
      fold_left
        (fun acc process =>
           (fst acc + stat_ticks process, snd acc + vm_peak_kb process))
        (all_processes s) (0, 0)
  end.

(** ** The request, the child and the world *)

Record LaunchRequest := {
  args : list string;
  timeout_seconds : Z;
  max_output_size : Z;
  env : option Env;
  shell : bool;
  cwd : option string
}.

Inductive CreationFlags := CREATE_NEW_PROCESS_GROUP.

(** The keyword arguments handed to [subprocess.Popen]; the three standard
    streams are fixed (DEVNULL, PIPE, PIPE) and left out. *)
Record PopenKw := {
  kw_env : Env;
  kw_bufsize : nat;
  kw_shell : bool;
  kw_cwd : option string;
  kw_user : option Z;
  kw_group : option Z;
  kw_start_new_session : bool;
  kw_creationflags : option CreationFlags
}.

(** A launched child, as the polling loop observes it tick by tick. *)
Record Child := {
  pid : Z;
  (** [p.poll()] at tick [i] *)
  poll : nat -> option Z;
  (** the process tree at tick [i] *)
  observe : nat -> option Snapshot;
  (** bytes the child has put into each pipe since the previous tick *)
  stdout_written : nat -> bytes;
  stderr_written : nat -> bytes;
  (** where pipes are blocking: everything each reader thread can read,
      and how many iterations of its loop it completes before the result
      is assembled or a read raises *)
  stdout_stream : bytes;
  stderr_stream : bytes;
  stdout_reader_steps : nat;
  stderr_reader_steps : nat
}.

Inductive PopenOutcome :=
| PopenRaises (e : PyExn)
| PopenOk (p : Child).

Record World := {
  Popen : list string -> PopenKw -> PopenOutcome;
  (** process group of the process that calls [run] *)
  caller_pgid : Z;
  proc_stat_at_start : option (list Z);
  proc_stat_at_end : option (list Z);
  time_at_start : Q;
  time_at_end : Q
}.

(** [os.getpgid(p.pid)]: a child started in a new session leads a group
    named after its own pid; any other child is in the group of the
    process that forked it. *)
Definition getpgid (w : World) (kw : PopenKw) (p : Child) : Z :=
  if kw_start_new_session kw then pid p else caller_pgid w.

(** What [run] does to the child, in order; a sampling is logged with the
    pair [(cur_cpu, cur_mem)] it obtained. *)
Inductive Action :=
| APopen (a : list string) (kw : PopenKw)
| ASample (cur : Z * Z)
| APoll
| ASleep
| AJoin
| AKillpg (pgid : Z)
| AKill (target : Z).

(** ** Pipes *)

(** [stream.read(n)] on a non-blocking pipe; [None] and [b""] are alike
    to the caller, which tests the result for truth. *)
Definition read_nonblocking (n : nat) (pipe : bytes) : option bytes * bytes :=
  match pipe with
  | [] => (None, [])
  | _ => (Some (firstn n pipe), skipn n pipe)
  end.

Definition truthy (r : option bytes) : bool :=
  match r with
  | Some (_ :: _) => true
  | _ => false
  end.

Definition chunk_of (r : option bytes) : bytes :=
  match r with Some c => c | None => [] end.

Definition len (b : bytes) : Z := Z.of_nat (List.length b).

(** One captured stream: [*_saved_bytes] and [*_bytes_read[0]]. *)
Record Capture := {
  saved_bytes : list bytes;
  bytes_read : Z
}.

Definition empty_capture : Capture :=
  {| saved_bytes := []; bytes_read := 0 |}.

(** ** read_stream

    The reader thread of one stream.  [steps] bounds the iterations the
    thread gets to make; a blocking [stream.read(n)] returns the next [n]
    bytes, fewer at the end of the stream, none after it.  The two threads
    share nothing with each other or with the loop, and the caller looks at
    their lists only once, after the joins; what it finds there is the
    state between two iterations. *)
Fixpoint read_stream (steps : nat) (max_output_size : Z)
         (stream : bytes) (c : Capture) : Capture :=
  match steps with
  | O => c
  | S steps' =>
    if bytes_read c <? max_output_size then
      let chunk := firstn MAX_BYTES_PER_READ stream in
      match chunk with
      | [] => c
      | _ =>
        read_stream steps' max_output_size
          (skipn MAX_BYTES_PER_READ stream)
          {| saved_bytes := saved_bytes c ++ [chunk];
             bytes_read := bytes_read c + len chunk |}
      end
    else c
  end.

(** ** The polling loop *)

(** The locals of [run] that the loop reads and writes.  [exit_code] is
    [None] until the first assignment. *)
Record LoopState := {
  process_peak_memory : Z;
  stdout_capture : Capture;
  stderr_capture : Capture;
  stdout_pipe : bytes;
  stderr_pipe : bytes;
  exit_code : option (option Z);
  actions : list Action
}.

Definition initial_state : LoopState :=
  {| process_peak_memory := 0;
     stdout_capture := empty_capture;
     stderr_capture := empty_capture;
     stdout_pipe := [];
     stderr_pipe := [];
     exit_code := None;
     actions := [] |}.

(** [cur_mem or 0] *)
Definition or_zero (z : Z) : Z := if z =? 0 then 0 else z.

(** [if this_read and bytes_read[0] < max_output_size: append, count] *)
Definition accept (max_output_size : Z) (this_read : option bytes)
           (c : Capture) : Capture :=
  if truthy this_read && (bytes_read c <? max_output_size)
  then {| saved_bytes := saved_bytes c ++ [chunk_of this_read];
          bytes_read := bytes_read c + len (chunk_of this_read) |}
  else c.

(** The sampling at the head of an iteration. *)
Definition sample (o : OsName) (p : Child) (i : nat) (s : LoopState)
  : LoopState :=
  let cur := get_process_cpu_mem o (observe p i) in
  {| process_peak_memory := Z.max (process_peak_memory s) (or_zero (snd cur));
     stdout_capture := stdout_capture s;
     stderr_capture := stderr_capture s;
     stdout_pipe := stdout_pipe s;
     stderr_pipe := stderr_pipe s;
     exit_code := exit_code s;
     actions := actions s ++ [ASample cur] |}.

(** The two bounded reads of an iteration of the non-blocking loop. *)
Definition drain (max_output_size : Z) (p : Child) (i : nat) (s : LoopState)
  : LoopState :=
  let this_stdout :=
    read_nonblocking MAX_BYTES_PER_READ (stdout_pipe s ++ stdout_written p i) in
  let this_stderr :=
    read_nonblocking MAX_BYTES_PER_READ (stderr_pipe s ++ stderr_written p i) in
  {| process_peak_memory := process_peak_memory s;
     stdout_capture := accept max_output_size (fst this_stdout) (stdout_capture s);
     stderr_capture := accept max_output_size (fst this_stderr) (stderr_capture s);
     stdout_pipe := snd this_stdout;
     stderr_pipe := snd this_stderr;
     exit_code := exit_code s;
     actions := actions s |}.

(** [exit_code = p.poll()] *)
Definition do_poll (p : Child) (i : nat) (s : LoopState) : LoopState :=
  {| process_peak_memory := process_peak_memory s;
     stdout_capture := stdout_capture s;
     stderr_capture := stderr_capture s;
     stdout_pipe := stdout_pipe s;
     stderr_pipe := stderr_pipe s;
     exit_code := Some (poll p i);
     actions := actions s ++ [APoll] |}.

Definition log (a : list Action) (s : LoopState) : LoopState :=
  {| process_peak_memory := process_peak_memory s;
     stdout_capture := stdout_capture s;
     stderr_capture := stderr_capture s;
     stdout_pipe := stdout_pipe s;
     stderr_pipe := stderr_pipe s;
     exit_code := exit_code s;
     actions := actions s ++ a |}.

(** The body of the [for] loop up to the test of [exit_code];
    [nonblocking] tells the loop of the non-blocking branch (which reads
    the pipes itself) from the loop of the threaded branch. *)
Definition tick (nonblocking : bool) (o : OsName) (max_output_size : Z)
           (p : Child) (i : nat) (s : LoopState) : LoopState :=
  let s1 := sample o p i s in
  let s2 := if nonblocking then drain max_output_size p i s1 else s1 in
  do_poll p i s2.

(** [for _ in range(n): ...; if exit_code is not None: break; sleep]
    started at tick [i]. *)
Fixpoint poll_loop (nonblocking : bool) (o : OsName) (max_output_size : Z)
         (p : Child) (n i : nat) (s : LoopState) : LoopState :=
  match n with
  | O => s
  | S n' =>
    let s' := tick nonblocking o max_output_size p i s in
    match exit_code s' with
    | Some (Some _) => s'
    | _ => poll_loop nonblocking o max_output_size p n' (S i) (log [ASleep] s')
    end
  end.

(** [max_iterations = timeout_seconds * 10]; [range] of a number that is
    not positive is empty. *)
Definition max_iterations (r : LaunchRequest) : nat :=
  Z.to_nat (timeout_seconds r * 10).

(** From the start of the readers to the end of the loop, on either
    branch of [if os.name == "nt"]. *)
Definition monitor (h : Host) (r : LaunchRequest) (p : Child) : LoopState :=
  if is_nt (os_name h) then
    let s := poll_loop false (os_name h) (max_output_size r) p
                       (max_iterations r) 0 initial_state in
    {| process_peak_memory := process_peak_memory s;
       stdout_capture :=
         read_stream (stdout_reader_steps p) (max_output_size r)
                     (stdout_stream p) empty_capture;
       stderr_capture :=
         read_stream (stderr_reader_steps p) (max_output_size r)
                     (stderr_stream p) empty_capture;
       stdout_pipe := stdout_pipe s;
       stderr_pipe := stderr_pipe s;
       exit_code := exit_code s;
       actions := actions s ++ [AJoin; AJoin] |}
  else
    poll_loop true (os_name h) (max_output_size r) p
              (max_iterations r) 0 initial_state.

(** ** run *)

Inductive RunOutcome :=
| Raised (e : PyExn)
| Returned (result : Dict)
| CallerKilled.

(** [result[k]] of a call that returned; nothing for a call that raised
    or did not outlive its own kill. *)
Definition result_field (k : string) (out : RunOutcome) : option PyVal :=
  match out with
  | Returned result => dict_get k result
  | Raised _ => None
  | CallerKilled => None
  end.

Definition popen_kw (h : Host) (cfg : Config) (r : LaunchRequest) : PopenKw :=
  let e := match env r with None => ENV cfg | Some e => e end in
  match SANDBOX_UID cfg with
  | Some uid =>
    {| kw_env := e; kw_bufsize := MAX_BYTES_PER_READ; kw_shell := false;
       kw_cwd := cwd r; kw_user := Some uid; kw_group := SANDBOX_GID cfg;
       kw_start_new_session := true; kw_creationflags := None |}
  | None =>
    {| kw_env := e; kw_bufsize := MAX_BYTES_PER_READ; kw_shell := false;
       kw_cwd := cwd r; kw_user := None; kw_group := None;
       kw_start_new_session := false;
       kw_creationflags :=
         if is_nt (os_name h) && has_CREATE_NEW_PROCESS_GROUP h
         then Some CREATE_NEW_PROCESS_GROUP else None |}
  end.

(** [process_group_id] *)
Definition process_group_id (h : Host) (w : World) (kw : PopenKw) (p : Child)
  : option Z :=
  if has_getpgid h then Some (getpgid w kw p) else None.

(** The signal sent after the loop. *)
Definition reap (pgid : option Z) (p : Child) : Action :=
  match pgid with
  | Some g => AKillpg g
  | None => AKill (pid p)
  end.

(** Whether the signal sent takes the caller along: a SIGKILL to the
    process group that the caller is in. *)
Definition kills_caller (w : World) (a : Action) : bool :=
  match a with
  | AKillpg g => g =? caller_pgid w
  | _ => false
  end.

(** From [timeout = exit_code is None] to [return result]. *)
Definition assemble (h : Host) (w : World) (r : LaunchRequest)
           (process_cpu : Z) (system_cpu_start : Z) (s : LoopState)
  : RunOutcome :=
  match exit_code s with
  | None => Raised (UnboundLocalError "exit_code")
  | Some code =>
    let timeout := match code with None => true | Some _ => false end in
    let exit_code' := match code with Some c => c | None => -1 end in
    match decode_utf8 Ignore (List.concat (saved_bytes (stdout_capture s))) with
    | None => Raised UnicodeDecodeError
    | Some stdout =>
      match decode_utf8 Ignore (List.concat (saved_bytes (stderr_capture s))) with
      | None => Raised UnicodeDecodeError
      | Some stderr =>
        let system_cpu_end := get_system_cpu (os_name h) (proc_stat_at_end w) in
        let process_cpu_util :=
          if negb (system_cpu_start =? system_cpu_end)
          then py_mul_pos
                 (py_mul_pos
                    (py_truediv process_cpu (system_cpu_end - system_cpu_start))
                    100)
                 (CPU_COUNT h)
          else VInt 0 in
        let process_exec_time := (time_at_end w - time_at_start w)%Q in
        Returned
          [ ("cmd", VArgs (args r));
            ("timeout", VBool timeout);
            ("exit_code", VInt exit_code');
            ("stdout", VStr stdout);
            ("stderr", VStr stderr);
            ("process_cpu_util", py_round2 process_cpu_util);
            ("process_cpu_time",
             py_round2 (py_truediv process_cpu (Zpos (SC_CLK_TCK h))));
            ("process_exec_time", py_round2 (VFloat process_exec_time));
            ("process_peak_memory", VInt (process_peak_memory s)) ]%string
    end
    end
  end.

Definition run (h : Host) (cfg : Config) (w : World) (r : LaunchRequest)
  : list Action * RunOutcome :=
  let kw := popen_kw h cfg r in
  match Popen w (args r) kw with
  | PopenRaises e => ([APopen (args r) kw], Raised e)
  | PopenOk p =>
    let system_cpu_start := get_system_cpu (os_name h) (proc_stat_at_start w) in
    let process_cpu := 0 in
    let pgid := process_group_id h w kw p in
    let s := monitor h r p in
    (APopen (args r) kw :: actions s ++ [reap pgid p],
     if kills_caller w (reap pgid p) then CallerKilled
     else assemble h w r process_cpu system_cpu_start s)
  end.

(** ** The vocabulary of the statements *)

(** A byte that can start no sequence: a continuation byte, an overlong
    lead (C0, C1) or a lead beyond F4. *)
Definition invalid_start (b : byte) : bool :=
  in_range 0x80 0xC1 b || (0xF5 <=? byte_val b).

(** The invariant of a captured stream: the counter is the number of bytes
    saved, and it went past the cap by one read at most. *)
Definition capture_inv (max_output_size : Z) (c : Capture) : Prop :=
  bytes_read c = len (List.concat (saved_bytes c))
  /\ (bytes_read c = 0
      \/ bytes_read c < max_output_size + Z.of_nat MAX_BYTES_PER_READ).

(** The byte length of a capture is within one read of the cap. *)
Definition within_cap (max_output_size : Z) (c : Capture) : Prop :=
  bytes_read c = len (List.concat (saved_bytes c))
  /\ len (List.concat (saved_bytes c))
     <= max_output_size + Z.of_nat MAX_BYTES_PER_READ.

Definition is_poll (a : Action) : bool :=
  match a with APoll => true | _ => false end.

Definition is_sleep (a : Action) : bool :=
  match a with ASleep => true | _ => false end.

(** How often the log [t] polls, and how often it sleeps. *)
Definition polls (t : list Action) : nat := List.length (filter is_poll t).
Definition sleeps (t : list Action) : nat := List.length (filter is_sleep t).

(** The memory figures of the samplings in a log, oldest first. *)
Definition sampled_memory (t : list Action) : list Z :=
  flat_map (fun a => match a with ASample cur => [snd cur] | _ => [] end) t.

(** The largest element of a list, and 0 for the empty list. *)
Definition max_from_zero (l : list Z) : Z := fold_right Z.max 0 l.

(** What the sampler returns at tick [i]. *)
Definition cur (o : OsName) (p : Child) (i : nat) : Z * Z :=
  get_process_cpu_mem o (observe p i).

(** The log of [k] iterations that found the child running, from tick [i]
    on. *)
Fixpoint waiting (o : OsName) (p : Child) (k i : nat) : list Action :=
  match k with
  | O => []
  | S k' => ASample (cur o p i) :: APoll :: ASleep :: waiting o p k' (S i)
  end.

(** The child is still running at each of the [k] ticks from [i] on. *)
Definition running (p : Child) (i k : nat) : Prop :=
  forall j, (i <= j < i + k)%nat -> poll p j = None.

(** The loop that [monitor] runs on host [h]. *)
Definition loop_of (h : Host) (r : LaunchRequest) (p : Child) : LoopState :=
  poll_loop (negb (is_nt (os_name h))) (os_name h) (max_output_size r) p
            (max_iterations r) 0 initial_state.

(** The bounded waits for the reader threads, where there are any. *)
Definition joins (h : Host) : list Action :=
  if is_nt (os_name h) then [AJoin; AJoin] else [].

(** The log of a call whose child is first found exited at tick [k]. *)
Definition trace_exited (h : Host) (cfg : Config) (w : World)
           (r : LaunchRequest) (p : Child) (k : nat) : list Action :=
  APopen (args r) (popen_kw h cfg r)
    :: waiting (os_name h) p k 0
    ++ [ASample (cur (os_name h) p k); APoll]
    ++ joins h
    ++ [reap (process_group_id h w (popen_kw h cfg r) p) p].

(** The log of a call whose child outlives the budget: the kill follows the
    last iteration, with nothing in between but the joins of the reader
    threads where there are any. *)
Definition trace_timed_out (h : Host) (cfg : Config) (w : World)
           (r : LaunchRequest) (p : Child) : list Action :=
  APopen (args r) (popen_kw h cfg r)
    :: waiting (os_name h) p (max_iterations r) 0
    ++ joins h
    ++ [reap (process_group_id h w (popen_kw h cfg r) p) p].

(** The kill of the call does not take the caller along. *)
Definition caller_survives (h : Host) (cfg : Config) (w : World)
           (r : LaunchRequest) (p : Child) : Prop :=
  kills_caller w (reap (process_group_id h w (popen_kw h cfg r) p) p) = false.

(** The keys of the result, in the order of the dictionary display. *)
Definition RESULT_KEYS : list string :=
  [ "cmd"; "timeout"; "exit_code"; "stdout"; "stderr"; "process_cpu_util";
    "process_cpu_time"; "process_exec_time"; "process_peak_memory" ]%string.

(** ** Concrete hosts, children and worlds *)

Module Scenario.

Definition posix_host : Host :=
  {| os_name := Posix; has_getpgid := true;
     has_CREATE_NEW_PROCESS_GROUP := false;
     SC_CLK_TCK := 100; CPU_COUNT := 4 |}.

Definition nt_host : Host :=
  {| os_name := Nt; has_getpgid := false;
     has_CREATE_NEW_PROCESS_GROUP := true;
     SC_CLK_TCK := 100; CPU_COUNT := 4 |}.

Definition no_sandbox : Config :=
  {| SANDBOX_UID := None; SANDBOX_GID := None; ENV := [] |}.

Definition sandbox : Config :=
  {| SANDBOX_UID := Some 1000; SANDBOX_GID := Some 1000; ENV := [] |}.

Definition request (a : list string) (t m : Z) : LaunchRequest :=
  {| args := a; timeout_seconds := t; max_output_size := m;
     env := None; shell := false; cwd := None |}.

(** A process that has used 200 user and 50 system ticks and has
    peaked at 5000 kB. *)
Definition busy : ProcStat :=
  {| utime := 200; stime := 50; cutime := 0; cstime := 0;
     VmPeak := Some (5000, kB) |}.

Definition busy_tree : Snapshot := {| rss := 0; all_processes := [busy] |}.

(** A child that writes [out] before the first tick and is found
    exited with status [status] from tick [at] on. *)
Definition child (out : bytes) (at_tick : nat) (status : Z) : Child :=
  {| pid := 4242;
     poll := fun i => if Nat.leb at_tick i then Some status else None;
     observe := fun _ => Some busy_tree;
     stdout_written := fun i => match i with O => out | _ => [] end;
     stderr_written := fun _ => [];
     stdout_stream := out;
     stderr_stream := [];
     stdout_reader_steps := 8;
     stderr_reader_steps := 8 |}.

(** A child that never exits and writes nothing. *)
Definition sleeper : Child :=
  {| pid := 4242;
     poll := fun _ => None;
     observe := fun _ => Some busy_tree;
     stdout_written := fun _ => [];
     stderr_written := fun _ => [];
     stdout_stream := [];
     stderr_stream := [];
     stdout_reader_steps := 0;
     stderr_reader_steps := 0 |}.

(** A world in which every launch succeeds and yields [p]; the system
    as a whole spends 1000 ticks during the call. *)
Definition world (p : Child) : World :=
  {| Popen := fun _ _ => PopenOk p;
     caller_pgid := 777;
     proc_stat_at_start := Some [5000; 0; 3000; 90000];
     proc_stat_at_end := Some [5400; 0; 3100; 90500];
     time_at_start := 0;
     time_at_end := 3 # 10 |}.

(** A world in which the executable does not exist. *)
Definition no_such_file : World :=
  {| Popen := fun _ _ => PopenRaises FileNotFoundError;
     caller_pgid := 777;
     proc_stat_at_start := None;
     proc_stat_at_end := None;
     time_at_start := 0;
     time_at_end := 0 |}.

Definition echo_hello : list string := ["echo"; "hello"]%string.

(** [b"hello\n"] *)
Definition hello : bytes := [x68; x65; x6c; x6c; x6f; x0a].

(** [b"a\xffb"] *)
Definition a_ff_b : bytes := [x61; xff; x62].

(** 5000 times the letter A *)
Definition flood : bytes := repeat x41 5000.

End Scenario.

(** ** set_nonblocking

    [fl] is what [F_GETFL] returns for the reader's descriptor and the
    result is what [F_SETFL] is given; [fcntl] tells whether the module of
    that name could be imported. *)
Definition set_nonblocking (fcntl : bool) (O_NONBLOCK : Z) (fl : Z) : Z :=
  if fcntl then Z.lor fl O_NONBLOCK else fl.

(** ** More vocabulary: logs, pipes and children *)

(** The actions of the loop and of the joins: none of them starts or
    signals a process. *)
Definition is_observation (a : Action) : bool :=
  match a with
  | ASample _ | APoll | ASleep | AJoin => true
  | APopen _ _ | AKillpg _ | AKill _ => false
  end.

(** Everything the child has put into a pipe before tick [i]. *)
Fixpoint written_before (f : nat -> bytes) (i : nat) : bytes :=
  match i with
  | O => []
  | S i' => written_before f i' ++ f i'
  end.

(** [a] is an initial segment of [b]. *)
Definition is_prefix (a b : bytes) : Prop := exists rest, b = a ++ rest.

(** The child [p] with another process tree to look at. *)
Definition with_observe (f : nat -> option Snapshot) (p : Child) : Child :=
  {| pid := pid p;
     poll := poll p;
     observe := f;
     stdout_written := stdout_written p;
     stderr_written := stderr_written p;
     stdout_stream := stdout_stream p;
     stderr_stream := stderr_stream p;
     stdout_reader_steps := stdout_reader_steps p;
     stderr_reader_steps := stderr_reader_steps p |}.


(** The world [w] in which every launched child is replaced by its image
    under [g]. *)
Definition map_child (g : Child -> Child) (w : World) : World :=
  {| Popen := fun a kw =>
                match Popen w a kw with
                | PopenOk p => PopenOk (g p)
                | PopenRaises e => PopenRaises e
                end;
     caller_pgid := caller_pgid w;
     proc_stat_at_start := proc_stat_at_start w;
     proc_stat_at_end := proc_stat_at_end w;
     time_at_start := time_at_start w;
     time_at_end := time_at_end w |}.

(** The books of the two streams in a state of the non-blocking loop:
    what was written is what is saved followed by a remainder, and as long
    as the cap is not reached the remainder is what is left in the pipe. *)
Definition stdout_books (m : Z) (p : Child) (s : LoopState) : Prop :=
  exists rest,
    written_before (stdout_written p) (polls (actions s))
    = List.concat (saved_bytes (stdout_capture s)) ++ rest
    /\ (bytes_read (stdout_capture s) < m -> rest = stdout_pipe s).

Definition stderr_books (m : Z) (p : Child) (s : LoopState) : Prop :=
  exists rest,
    written_before (stderr_written p) (polls (actions s))
    = List.concat (saved_bytes (stderr_capture s)) ++ rest
    /\ (bytes_read (stderr_capture s) < m -> rest = stderr_pipe s).

(** A state of the loop without what the sampler feeds: the peak and the
    log. *)
Definition without_samples (s : LoopState)
  : Capture * Capture * bytes * bytes * option (option Z) :=
  (stdout_capture s, stderr_capture s, stdout_pipe s, stderr_pipe s,
   exit_code s).


(** A Unicode scalar value: a code point that is not a surrogate. *)
Definition is_scalar_value (c : Z) : Prop :=
  0 <= c <= 0x10FFFF /\ ~ (0xD800 <= c <= 0xDFFF).

(** ** run_eval: the pure steps of [run_one]

    [src/data/run_eval.py].  A [str] is the list of its code points. *)

Module RunEval.

Definition BACKSLASH : Z := 92.
Definition LETTER_N : Z := 110.
Definition NEWLINE : Z := 10.

(** ["\\n" in s]: a backslash followed by the letter n. *)
Fixpoint has_escaped_newline (s : pystr) : bool :=
  match s with
  | [] => false
  | a :: t =>
    match t with
    | [] => false
    | b :: _ => ((a =? BACKSLASH) && (b =? LETTER_N)) || has_escaped_newline t
    end
  end.

(** ["\n" in s] *)
Definition has_newline (s : pystr) : bool := existsb (Z.eqb NEWLINE) s.

(** [s.replace("\\n", "\n")]: occurrences are replaced from the left,
    without overlap. *)
Fixpoint replace_escaped_newlines (s : pystr) : pystr :=
  match s with
  | [] => []
  | a :: t =>
    match t with
    | [] => [a]
    | b :: r =>
      if (a =? BACKSLASH) && (b =? LETTER_N)
      then NEWLINE :: replace_escaped_newlines r
      else a :: replace_escaped_newlines t
    end
  end.

(** [if "\\n" in main_code and "\n" not in main_code:
       main_code = main_code.replace("\\n", "\n")] *)
Definition normalize_main_code (main_code : pystr) : pystr :=
  if has_escaped_newline main_code && negb (has_newline main_code)
  then replace_escaped_newlines main_code
  else main_code.

(** ["\n... (truncated)"] *)
Definition TRUNCATED : pystr :=
  [10; 46; 46; 46; 32; 40; 116; 114; 117; 110; 99; 97; 116; 101; 100; 41].

(** What [output] can be: a [str], or the per-test results as the
    executor hands them over. *)
Inductive Output (A : Type) :=
| OutStr (s : pystr)
| OutOther (x : A).

Arguments OutStr {A} s.
Arguments OutOther {A} x.

(** [if isinstance(output, str) and len(output) > 8000:
       output = output[:8000] + "\n... (truncated)"] *)
Definition truncate_output {A : Type} (output : Output A) : Output A :=
  match output with
  | OutStr s =>
    if 8000 <? Z.of_nat (List.length s)
    then OutStr (firstn (Z.to_nat 8000) s ++ TRUNCATED)
    else OutStr s
  | OutOther x => OutOther x
  end.

End RunEval.

(** ** log: setup_logger

    [src/data/log.py].  The registry of the logging module maps a name
    to its logger, of which the handlers and the level matter here; the
    file system answers whether a directory can be made and whether a
    file can be opened for appending. *)

Module Log.

Inductive Handler :=
| FileHandler (log_file : string)
| StreamHandler.

Record FileSystem := {
  makedirs_ok : string -> bool;
  open_ok : string -> bool;
  (** [os.path.join] *)
  path_join : string -> string -> string
}.

Record LogState := {
  LOG_DIR : string;
  handlers : string -> list Handler;
  level_is_INFO : string -> bool
}.

Inductive LogOutcome :=
| LogRaised (st : LogState)
| LogReturned (st : LogState).

Definition final_state (o : LogOutcome) : LogState :=
  match o with LogRaised st => st | LogReturned st => st end.

Definition set_LOG_DIR (d : string) (st : LogState) : LogState :=
  {| LOG_DIR := d; handlers := handlers st; level_is_INFO := level_is_INFO st |}.

Definition setLevel_INFO (name : string) (st : LogState) : LogState :=
  {| LOG_DIR := LOG_DIR st;
     handlers := handlers st;
     level_is_INFO := fun n => if String.eqb n name then true
                               else level_is_INFO st n |}.

Definition addHandler (name : string) (hd : Handler) (st : LogState)
  : LogState :=
  {| LOG_DIR := LOG_DIR st;
     handlers := fun n => if String.eqb n name then handlers st n ++ [hd]
                          else handlers st n;
     level_is_INFO := level_is_INFO st |}.

(** [setup_logger(name, file_name)]; [module_dir] is the directory of
    log.py.  A raise leaves behind what was done before it. *)
Definition setup_logger (fs : FileSystem) (module_dir : string)
           (name : string) (file_name : option string) (st : LogState)
  : LogOutcome :=
  match handlers st name with
  | _ :: _ => LogReturned st
  | [] =>
    let made :=
      if makedirs_ok fs (LOG_DIR st) then Some st
      else
        let st' := set_LOG_DIR module_dir st in
        if makedirs_ok fs module_dir then Some st' else None in
    match made with
    | None => LogRaised (set_LOG_DIR module_dir st)
    | Some st1 =>
      let file_name' :=
        match file_name with
        | None => (name ++ ".log")%string
        | Some f => f
        end in
      let log_file := path_join fs (LOG_DIR st1) file_name' in
      let st2 := setLevel_INFO name st1 in
      if open_ok fs log_file
      then LogReturned
             (addHandler name StreamHandler
                (addHandler name (FileHandler log_file) st2))
      else LogRaised st2
    end
  end.

(** Every logger has no handler or the two that [setup_logger] adds. *)
Definition well_set_up (st : LogState) : Prop :=
  forall n, handlers st n = []
            \/ exists f, handlers st n = [FileHandler f; StreamHandler].

End Log.

(** * Facts about the codec *)

Lemma emit_some (c : Z) (rest : option pystr) :
  rest <> None -> emit c rest <> None.
Proof. destruct rest; simpl; congruence. Qed.

Lemma on_error_ignore_some (rest : option pystr) :
  rest <> None -> on_error Ignore rest <> None.
Proof. trivial. Qed.

(** With [errors="ignore"] the decoder has a result on every input.  The
    recursion skips up to four bytes at a time, hence the induction on a
    bound of the length. *)
Lemma decode_utf8_ignore_bounded (n : nat) :
  forall bs : bytes, (List.length bs <= n)%nat -> decode_utf8 Ignore bs <> None.
Proof.
  induction n as [|n IH]; intros bs Hlen.
  - destruct bs; simpl in Hlen; [simpl; congruence | lia].
  - destruct bs as [|b0 r0]; [simpl; congruence|].
    simpl in Hlen.
    assert (H0 : decode_utf8 Ignore r0 <> None) by (apply IH; lia).
    assert (Hnil : on_error Ignore (Some []) <> None) by (simpl; congruence).
    cbn [decode_utf8].
    repeat match goal with
           | |- context [if ?c then _ else _] => destruct c
           | |- context [match ?l with [] => _ | _ :: _ => _ end] =>
             is_var l; destruct l; simpl in Hlen
           | |- emit _ _ <> None => apply emit_some
           | |- on_error Ignore (decode_utf8 _ _) <> None =>
             apply on_error_ignore_some
           | |- decode_utf8 Ignore _ <> None =>
             first [assumption | apply IH; simpl; lia]
           | |- on_error Ignore (Some []) <> None => exact Hnil
           end.
Qed.

Lemma decode_utf8_ignore_total (bs : bytes) :
  exists s, decode_utf8 Ignore bs = Some s.
Proof.
  destruct (decode_utf8 Ignore bs) as [s|] eqn:E; [now exists s|].
  exfalso. now apply (decode_utf8_ignore_bounded (List.length bs) bs).
Qed.

Lemma decode_utf8_invalid_start (m : ErrorsMode) (b : byte) (rest : bytes) :
  invalid_start b = true ->
  decode_utf8 m (b :: rest) = on_error m (decode_utf8 m rest).
Proof.
  unfold invalid_start, in_range. intros H.
  cbn [decode_utf8]. cbv zeta.
  destruct (byte_val b <? 0x80) eqn:E1; [exfalso; lia|].
  destruct (byte_val b <? 0xC2) eqn:E2; [reflexivity|].
  destruct (byte_val b <? 0xE0) eqn:E3; [exfalso; lia|].
  destruct (byte_val b <? 0xF0) eqn:E4; [exfalso; lia|].
  destruct (byte_val b <? 0xF5) eqn:E5; [exfalso; lia|].
  reflexivity.
Qed.

(** Seven-bit text decodes to itself under every error handler. *)
Lemma decode_utf8_ascii (m : ErrorsMode) (bs : bytes) :
  forallb (fun b => byte_val b <? 0x80) bs = true ->
  decode_utf8 m bs = Some (map byte_val bs).
Proof.
  induction bs as [|b bs IH]; intros H; [reflexivity|].
  simpl in H. apply andb_prop in H. destruct H as [Hb Hbs].
  cbn [decode_utf8]. cbv zeta. rewrite Hb, (IH Hbs). reflexivity.
Qed.

(** * Facts about the captured streams *)

Lemma len_app (a b : bytes) : len (a ++ b) = len a + len b.
Proof. unfold len. rewrite length_app. lia. Qed.

Lemma len_nonneg (b : bytes) : 0 <= len b.
Proof. unfold len. lia. Qed.

Lemma len_firstn (n : nat) (b : bytes) : len (firstn n b) <= Z.of_nat n.
Proof. unfold len. pose proof (firstn_le_length n b). lia. Qed.

Lemma concat_snoc (l : list bytes) (c : bytes) :
  List.concat (l ++ [c]) = List.concat l ++ c.
Proof. rewrite concat_app. simpl. now rewrite app_nil_r. Qed.

(** A read hands over at most the number of bytes asked for. *)
Lemma read_nonblocking_len (n : nat) (pipe : bytes) :
  len (chunk_of (fst (read_nonblocking n pipe))) <= Z.of_nat n.
Proof.
  destruct pipe as [|b pipe]; simpl.
  - unfold len. simpl. lia.
  - apply (len_firstn n (b :: pipe)).
Qed.

(** Nothing is lost between the pipe and the reader: what a read returns
    and what it leaves make up what was there. *)
Lemma read_nonblocking_split (n : nat) (pipe : bytes) :
  chunk_of (fst (read_nonblocking n pipe)) ++ snd (read_nonblocking n pipe)
  = pipe.
Proof.
  destruct pipe as [|b pipe]; [reflexivity|].
  cbn [read_nonblocking fst snd chunk_of]. apply firstn_skipn.
Qed.

Lemma capture_inv_empty (m : Z) : capture_inv m empty_capture.
Proof. split; [reflexivity | now left]. Qed.

Lemma accept_inv (m : Z) (this_read : option bytes) (c : Capture) :
  len (chunk_of this_read) <= Z.of_nat MAX_BYTES_PER_READ ->
  capture_inv m c -> capture_inv m (accept m this_read c).
Proof.
  intros Hlen [Hcount Hcap]. unfold accept.
  destruct (truthy this_read && (bytes_read c <? m)) eqn:E; [|now split].
  apply andb_prop in E. destruct E as [_ E]. apply Z.ltb_lt in E.
  split; cbn [saved_bytes bytes_read].
  - rewrite concat_snoc, len_app. lia.
  - right. lia.
Qed.

(** At the cap, a read is dropped. *)
Lemma accept_at_cap (m : Z) (this_read : option bytes) (c : Capture) :
  m <= bytes_read c -> accept m this_read c = c.
Proof.
  intros H. unfold accept.
  replace (bytes_read c <? m) with false by (symmetry; apply Z.ltb_ge; lia).
  now rewrite andb_false_r.
Qed.

Lemma read_stream_inv (m : Z) (steps : nat) :
  forall (stream : bytes) (c : Capture),
    capture_inv m c -> capture_inv m (read_stream steps m stream c).
Proof.
  induction steps as [|steps IH]; intros stream c Hc; [exact Hc|].
  cbn [read_stream].
  destruct (bytes_read c <? m) eqn:E; [|exact Hc].
  apply Z.ltb_lt in E.
  destruct (firstn MAX_BYTES_PER_READ stream) as [|b chunk] eqn:Echunk;
    [exact Hc|].
  apply IH. destruct Hc as [Hcount _].
  split; cbn [saved_bytes bytes_read].
  - rewrite concat_snoc, len_app, Hcount. reflexivity.
  - right. pose proof (len_firstn MAX_BYTES_PER_READ stream) as Hle.
    rewrite Echunk in Hle. lia.
Qed.

(** At the cap, the reader thread stops reading. *)
Lemma read_stream_at_cap (m : Z) (steps : nat) (stream : bytes) (c : Capture) :
  m <= bytes_read c -> read_stream steps m stream c = c.
Proof.
  intros H. destruct steps as [|steps]; [reflexivity|].
  cbn [read_stream].
  replace (bytes_read c <? m) with false by (symmetry; apply Z.ltb_ge; lia).
  reflexivity.
Qed.

(** * Facts about the polling loop *)

Lemma max_from_zero_snoc (l : list Z) (x : Z) :
  max_from_zero (l ++ [x]) = Z.max (max_from_zero l) x.
Proof.
  induction l as [|y l IH]; simpl.
  - lia.
  - fold (max_from_zero (l ++ [x])). fold (max_from_zero l). rewrite IH. lia.
Qed.

Lemma max_from_zero_ge (l : list Z) (x : Z) :
  In x l -> x <= max_from_zero l.
Proof.
  induction l as [|y l IH]; simpl; [tauto|].
  fold (max_from_zero l). intros [->|H]; [lia|]. specialize (IH H). lia.
Qed.

Lemma polls_app (a b : list Action) : polls (a ++ b) = (polls a + polls b)%nat.
Proof. unfold polls. now rewrite filter_app, length_app. Qed.

Lemma sleeps_app (a b : list Action) :
  sleeps (a ++ b) = (sleeps a + sleeps b)%nat.
Proof. unfold sleeps. now rewrite filter_app, length_app. Qed.

Lemma sampled_memory_app (a b : list Action) :
  sampled_memory (a ++ b) = sampled_memory a ++ sampled_memory b.
Proof. unfold sampled_memory. apply flat_map_app. Qed.

Lemma or_zero_id (z : Z) : or_zero z = z.
Proof. unfold or_zero. destruct (Z.eqb_spec z 0); congruence. Qed.

Section PollLoop.

Variable nonblocking : bool.
Variable o : OsName.
Variable m : Z.
Variable p : Child.

Lemma polls_waiting (k i : nat) : polls (waiting o p k i) = k.
Proof.
  revert i. induction k as [|k IH]; intros i; [reflexivity|].
  change (waiting o p (S k) i)
    with ([ASample (cur o p i); APoll; ASleep] ++ waiting o p k (S i)).
  rewrite polls_app, IH. reflexivity.
Qed.

Lemma sleeps_waiting (k i : nat) : sleeps (waiting o p k i) = k.
Proof.
  revert i. induction k as [|k IH]; intros i; [reflexivity|].
  change (waiting o p (S k) i)
    with ([ASample (cur o p i); APoll; ASleep] ++ waiting o p k (S i)).
  rewrite sleeps_app, IH. reflexivity.
Qed.

Lemma tick_exit_code (i : nat) (s : LoopState) :
  exit_code (tick nonblocking o m p i s) = Some (poll p i).
Proof. reflexivity. Qed.

Lemma tick_actions (i : nat) (s : LoopState) :
  actions (tick nonblocking o m p i s)
  = actions s ++ [ASample (cur o p i); APoll].
Proof.
  unfold tick, do_poll. cbn [actions].
  destruct nonblocking; cbn [drain sample actions];
    now rewrite <- app_assoc.
Qed.

Lemma tick_peak (i : nat) (s : LoopState) :
  process_peak_memory (tick nonblocking o m p i s)
  = Z.max (process_peak_memory s) (snd (cur o p i)).
Proof.
  unfold tick, do_poll. cbn [process_peak_memory].
  destruct nonblocking; cbn [drain sample process_peak_memory];
    now rewrite or_zero_id.
Qed.

Lemma running_tail (i k : nat) : running p i (S k) -> running p (S i) k.
Proof. intros H j Hj. apply H. lia. Qed.

(** The budget runs out: every iteration is made, each followed by its
    sleep, and nothing else happens. *)
Lemma poll_loop_exhausted (n : nat) :
  forall (i : nat) (s : LoopState),
    running p i n ->
    actions (poll_loop nonblocking o m p n i s) = actions s ++ waiting o p n i
    /\ (0 < n -> exit_code (poll_loop nonblocking o m p n i s) = Some None)%nat.
Proof.
  induction n as [|n IH]; intros i s Hrun.
  - split; [simpl; now rewrite app_nil_r | lia].
  - cbn [poll_loop]. rewrite tick_exit_code.
    assert (Hi : poll p i = None) by (apply Hrun; lia).
    rewrite Hi.
    destruct (IH (S i) (log [ASleep] (tick nonblocking o m p i s))
                 (running_tail _ _ Hrun)) as [Hact Hcode].
    split.
    + rewrite Hact. cbn [log actions waiting]. rewrite tick_actions.
      rewrite <- !app_assoc. reflexivity.
    + intros _. destruct n as [|n].
      * cbn [poll_loop log exit_code]. now rewrite tick_exit_code, Hi.
      * apply Hcode. lia.
Qed.

(** The child is found exited at tick [i + k], within the budget: the
    loop stops right after that poll. *)
Lemma poll_loop_exited (k : nat) :
  forall (n i : nat) (s : LoopState) (c : Z),
    (k < n)%nat ->
    running p i k ->
    poll p (i + k) = Some c ->
    actions (poll_loop nonblocking o m p n i s)
    = actions s ++ waiting o p k i ++ [ASample (cur o p (i + k)); APoll]
    /\ exit_code (poll_loop nonblocking o m p n i s) = Some (Some c).
Proof.
  induction k as [|k IH]; intros n i s c Hk Hrun Hexit.
  - destruct n as [|n]; [lia|].
    rewrite Nat.add_0_r in *.
    cbn [poll_loop]. rewrite tick_exit_code, Hexit. cbv iota.
    split; [apply tick_actions | now rewrite tick_exit_code, Hexit].
  - destruct n as [|n]; [lia|].
    cbn [poll_loop]. rewrite tick_exit_code.
    assert (Hi : poll p i = None) by (apply Hrun; lia).
    rewrite Hi.
    destruct (IH n (S i) (log [ASleep] (tick nonblocking o m p i s)) c)
      as [Hact Hcode].
    + lia.
    + now apply running_tail.
    + now replace (S i + k)%nat with (i + S k)%nat by lia.
    + split; [|exact Hcode].
      rewrite Hact. cbn [log actions waiting]. rewrite tick_actions.
      replace (S i + k)%nat with (i + S k)%nat by lia.
      rewrite <- !app_assoc. reflexivity.
Qed.

(** Within any budget, either the child is found exited at some first
    tick, or it is running p at every tick. *)
Lemma exit_or_running (n i : nat) :
  (exists k c, (k < n)%nat /\ running p i k /\ poll p (i + k) = Some c)
  \/ running p i n.
Proof.
  revert i. induction n as [|n IH]; intros i.
  - right. intros j Hj. lia.
  - destruct (poll p i) as [c|] eqn:Hi.
    + left. exists 0%nat, c. repeat split; [lia | | now rewrite Nat.add_0_r].
      intros j Hj. lia.
    + destruct (IH (S i)) as [(k & c & Hk & Hrun & Hexit)|Hrun].
      * left. exists (S k), c. repeat split; [lia | |].
        -- intros j Hj. destruct (Nat.eq_dec j i) as [->|Hne]; [exact Hi|].
           apply Hrun. lia.
        -- now replace (i + S k)%nat with (S i + k)%nat by lia.
      * right. intros j Hj.
        destruct (Nat.eq_dec j i) as [->|Hne]; [exact Hi|].
        apply Hrun. lia.
Qed.

(** The running p maximum equals the largest memory figure sampled. *)
Lemma poll_loop_peak (n : nat) :
  forall (i : nat) (s : LoopState),
    process_peak_memory s = max_from_zero (sampled_memory (actions s)) ->
    process_peak_memory (poll_loop nonblocking o m p n i s)
    = max_from_zero
        (sampled_memory (actions (poll_loop nonblocking o m p n i s))).
Proof.
  induction n as [|n IH]; intros i s Hs; [exact Hs|].
  assert (Ht : process_peak_memory (tick nonblocking o m p i s)
               = max_from_zero
                   (sampled_memory (actions (tick nonblocking o m p i s)))).
  { rewrite tick_peak, tick_actions, Hs.
    change [ASample (cur o p i); APoll] with ([ASample (cur o p i)] ++ [APoll]).
    rewrite app_assoc, !sampled_memory_app. cbn [sampled_memory flat_map].
    rewrite !app_nil_r. now rewrite max_from_zero_snoc. }
  cbn [poll_loop].
  destruct (exit_code (tick nonblocking o m p i s)) as [[c|]|];
    [exact Ht | |];
    apply IH; cbn [log actions process_peak_memory];
    rewrite sampled_memory_app; cbn [sampled_memory flat_map];
    now rewrite app_nil_r.
Qed.

Lemma tick_peak_mono (i : nat) (s : LoopState) :
  process_peak_memory s <= process_peak_memory (tick nonblocking o m p i s).
Proof. rewrite tick_peak. lia. Qed.

Lemma poll_loop_peak_mono (n : nat) :
  forall (i : nat) (s : LoopState),
    process_peak_memory s
    <= process_peak_memory (poll_loop nonblocking o m p n i s).
Proof.
  induction n as [|n IH]; intros i s; [simpl; lia|].
  cbn [poll_loop]. pose proof (tick_peak_mono i s) as Ht.
  destruct (exit_code (tick nonblocking o m p i s)) as [[c|]|];
    [exact Ht | |];
    (etransitivity; [exact Ht|]);
    apply (IH (S i) (log [ASleep] (tick nonblocking o m p i s))).
Qed.

End PollLoop.

(** * Facts about [run] *)

Lemma monitor_exit_code (h : Host) (r : LaunchRequest) (p : Child) :
  exit_code (monitor h r p) = exit_code (loop_of h r p).
Proof. unfold monitor, loop_of. now destruct (is_nt (os_name h)). Qed.

Lemma monitor_peak (h : Host) (r : LaunchRequest) (p : Child) :
  process_peak_memory (monitor h r p) = process_peak_memory (loop_of h r p).
Proof. unfold monitor, loop_of. now destruct (is_nt (os_name h)). Qed.

Lemma monitor_actions (h : Host) (r : LaunchRequest) (p : Child) :
  actions (monitor h r p) = actions (loop_of h r p) ++ joins h.
Proof.
  unfold monitor, loop_of, joins.
  destruct (is_nt (os_name h)); cbn [negb actions]; [reflexivity|].
  now rewrite app_nil_r.
Qed.

Lemma run_launched (h : Host) (cfg : Config) (w : World) (r : LaunchRequest)
      (p : Child) :
  Popen w (args r) (popen_kw h cfg r) = PopenOk p ->
  run h cfg w r
  = (APopen (args r) (popen_kw h cfg r)
       :: actions (monitor h r p)
       ++ [reap (process_group_id h w (popen_kw h cfg r) p) p],
     if kills_caller w (reap (process_group_id h w (popen_kw h cfg r) p) p)
     then CallerKilled
     else assemble h w r 0
                   (get_system_cpu (os_name h) (proc_stat_at_start w))
                   (monitor h r p)).
Proof. intros H. unfold run. now rewrite H. Qed.

(** A call whose kill leaves the caller alive ends as the assembly ends. *)
Lemma run_survived (h : Host) (cfg : Config) (w : World) (r : LaunchRequest)
      (p : Child) :
  Popen w (args r) (popen_kw h cfg r) = PopenOk p ->
  caller_survives h cfg w r p ->
  snd (run h cfg w r)
  = assemble h w r 0 (get_system_cpu (os_name h) (proc_stat_at_start w))
             (monitor h r p).
Proof.
  intros Hp Hs. rewrite (run_launched h cfg w r p Hp). cbn [snd].
  unfold caller_survives in Hs. now rewrite Hs.
Qed.

(** A call whose kill takes the caller along has no outcome of its own. *)
Lemma run_killed (h : Host) (cfg : Config) (w : World) (r : LaunchRequest)
      (p : Child) :
  Popen w (args r) (popen_kw h cfg r) = PopenOk p ->
  kills_caller w (reap (process_group_id h w (popen_kw h cfg r) p) p) = true ->
  snd (run h cfg w r) = CallerKilled.
Proof.
  intros Hp Hk. rewrite (run_launched h cfg w r p Hp). cbn [snd].
  now rewrite Hk.
Qed.

(** A call that returned has outlived its kill, and what it returned is
    what the assembly returned. *)
Lemma run_returned_inv (h : Host) (cfg : Config) (w : World)
      (r : LaunchRequest) (p : Child) (res : Dict) :
  Popen w (args r) (popen_kw h cfg r) = PopenOk p ->
  snd (run h cfg w r) = Returned res ->
  caller_survives h cfg w r p
  /\ assemble h w r 0 (get_system_cpu (os_name h) (proc_stat_at_start w))
               (monitor h r p)
     = Returned res.
Proof.
  intros Hp. rewrite (run_launched h cfg w r p Hp). cbn [snd].
  unfold caller_survives.
  destruct (kills_caller w _); [discriminate | now split].
Qed.

(** With a sandbox identity the caller outlives the kill, the child's pid
    not being the caller's group; so it does where process groups cannot
    be asked for. *)
Lemma sandboxed_caller_survives (h : Host) (cfg : Config) (w : World)
      (r : LaunchRequest) (p : Child) (uid : Z) :
  SANDBOX_UID cfg = Some uid ->
  pid p <> caller_pgid w ->
  caller_survives h cfg w r p.
Proof.
  intros Huid Hne. unfold caller_survives, process_group_id, getpgid, popen_kw.
  rewrite Huid. cbn [kw_start_new_session].
  destruct (has_getpgid h); cbn [reap kills_caller]; [|reflexivity].
  now apply Z.eqb_neq.
Qed.

Lemma without_getpgid_caller_survives (h : Host) (cfg : Config) (w : World)
      (r : LaunchRequest) (p : Child) :
  has_getpgid h = false ->
  caller_survives h cfg w r p.
Proof.
  intros H. unfold caller_survives, process_group_id. now rewrite H.
Qed.

Lemma run_launch_failed (h : Host) (cfg : Config) (w : World)
      (r : LaunchRequest) (e : PyExn) :
  Popen w (args r) (popen_kw h cfg r) = PopenRaises e ->
  run h cfg w r = ([APopen (args r) (popen_kw h cfg r)], Raised e).
Proof. intros H. unfold run. now rewrite H. Qed.

(** Once [exit_code] is bound, the assembly goes through and the record
    is the one written out in the source. *)
Lemma assemble_bound (h : Host) (w : World) (r : LaunchRequest)
      (process_cpu system_cpu_start : Z) (s : LoopState) (code : option Z) :
  exit_code s = Some code ->
  exists out err util,
    decode_utf8 Ignore (List.concat (saved_bytes (stdout_capture s))) = Some out
    /\ decode_utf8 Ignore (List.concat (saved_bytes (stderr_capture s)))
       = Some err
    /\ assemble h w r process_cpu system_cpu_start s
       = Returned
           [ ("cmd", VArgs (args r));
             ("timeout", VBool match code with None => true | _ => false end);
             ("exit_code", VInt match code with Some c => c | None => -1 end);
             ("stdout", VStr out);
             ("stderr", VStr err);
             ("process_cpu_util", util);
             ("process_cpu_time",
              py_round2 (py_truediv process_cpu (Zpos (SC_CLK_TCK h))));
             ("process_exec_time",
              py_round2 (VFloat (time_at_end w - time_at_start w)));
             ("process_peak_memory", VInt (process_peak_memory s)) ]%string.
Proof.
  intros Hcode.
  destruct (decode_utf8_ignore_total
              (List.concat (saved_bytes (stdout_capture s)))) as [out Hout].
  destruct (decode_utf8_ignore_total
              (List.concat (saved_bytes (stderr_capture s)))) as [err Herr].
  exists out, err. eexists. repeat split; [exact Hout | exact Herr |].
  unfold assemble. rewrite Hcode, Hout, Herr. reflexivity.
Qed.

Lemma assemble_unbound (h : Host) (w : World) (r : LaunchRequest)
      (process_cpu system_cpu_start : Z) (s : LoopState) :
  exit_code s = None ->
  assemble h w r process_cpu system_cpu_start s
  = Raised (UnboundLocalError "exit_code").
Proof. intros H. unfold assemble. now rewrite H. Qed.

(** What a call that returned has returned. *)
Lemma run_returned_fields (h : Host) (cfg : Config) (w : World)
      (r : LaunchRequest) (p : Child) (res : Dict) :
  Popen w (args r) (popen_kw h cfg r) = PopenOk p ->
  snd (run h cfg w r) = Returned res ->
  exists code out err util,
    exit_code (monitor h r p) = Some code
    /\ decode_utf8 Ignore
         (List.concat (saved_bytes (stdout_capture (monitor h r p)))) = Some out
    /\ decode_utf8 Ignore
         (List.concat (saved_bytes (stderr_capture (monitor h r p)))) = Some err
    /\ res
       = [ ("cmd", VArgs (args r));
           ("timeout", VBool match code with None => true | _ => false end);
           ("exit_code", VInt match code with Some c => c | None => -1 end);
           ("stdout", VStr out);
           ("stderr", VStr err);
           ("process_cpu_util", util);
           ("process_cpu_time",
            py_round2 (py_truediv 0 (Zpos (SC_CLK_TCK h))));
           ("process_exec_time",
            py_round2 (VFloat (time_at_end w - time_at_start w)));
           ("process_peak_memory",
            VInt (process_peak_memory (monitor h r p))) ]%string.
Proof.
  intros Hp Hres.
  destruct (run_returned_inv h cfg w r p res Hp Hres) as [_ Hasm].
  destruct (exit_code (monitor h r p)) as [code|] eqn:Hcode.
  - destruct (assemble_bound h w r 0
                (get_system_cpu (os_name h) (proc_stat_at_start w))
                (monitor h r p) code Hcode)
      as (out & err & util & Hout & Herr & Hret).
    rewrite Hret in Hasm. injection Hasm as <-.
    now exists code, out, err, util.
  - rewrite (assemble_unbound h w r 0 _ (monitor h r p) Hcode) in Hasm.
    discriminate Hasm.
Qed.

(** A loop with a positive budget assigns [exit_code]: the value is the
    status found at the first tick at which the child has exited, or
    [None] if there is no such tick within the budget. *)
Lemma poll_loop_binds (nb : bool) (o : OsName) (m : Z) (p : Child)
      (n i : nat) (s : LoopState) :
  (0 < n)%nat ->
  exists code, exit_code (poll_loop nb o m p n i s) = Some code.
Proof.
  intros Hn.
  destruct (exit_or_running p n i) as [(k & c & Hk & Hrun & Hexit)|Hrun].
  - exists (Some c). now apply (poll_loop_exited nb o m p k n i s c).
  - exists None. now apply (poll_loop_exhausted nb o m p n i s).
Qed.

Lemma max_iterations_pos (r : LaunchRequest) :
  1 <= timeout_seconds r -> (0 < max_iterations r)%nat.
Proof. unfold max_iterations. lia. Qed.

(** A call that gets past the launch and outlives its kill returns, the
    timeout being one second or more. *)
Lemma run_returns (h : Host) (cfg : Config) (w : World) (r : LaunchRequest)
      (p : Child) :
  Popen w (args r) (popen_kw h cfg r) = PopenOk p ->
  caller_survives h cfg w r p ->
  1 <= timeout_seconds r ->
  exists res, snd (run h cfg w r) = Returned res.
Proof.
  intros Hp Hs Ht.
  destruct (poll_loop_binds (negb (is_nt (os_name h))) (os_name h)
                            (max_output_size r) p (max_iterations r) 0
                            initial_state (max_iterations_pos r Ht))
    as [code Hcode].
  fold (loop_of h r p) in Hcode. rewrite <- monitor_exit_code in Hcode.
  destruct (assemble_bound h w r 0
              (get_system_cpu (os_name h) (proc_stat_at_start w))
              (monitor h r p) code Hcode)
    as (out & err & util & _ & _ & Hres).
  eexists. rewrite (run_survived h cfg w r p Hp Hs). exact Hres.
Qed.

Lemma max_iterations_zero (r : LaunchRequest) :
  timeout_seconds r <= 0 -> max_iterations r = 0%nat.
Proof. unfold max_iterations. lia. Qed.

(** A rational that equals zero rounds to the float zero. *)
Lemma round2_zero (q : Q) : (q == 0)%Q -> round2 q = 0%Q.
Proof.
  intros Hq. unfold round2.
  assert (H100 : (q * 100 == 0)%Q) by (rewrite Hq; reflexivity).
  assert (Hr : round_half_even (q * 100) = 0).
  { unfold round_half_even.
    rewrite (Qfloor_comp _ _ H100). change (Qfloor 0) with 0.
    assert (Hz : (q * 100 - inject_Z 0 == 0)%Q) by (rewrite H100; reflexivity).
    assert (Hc : ((q * 100 - inject_Z 0) ?= 1 # 2)%Q = Lt).
    { rewrite (Qcompare_comp _ _ Hz (1 # 2)%Q (1 # 2)%Q (Qeq_refl _)).
      reflexivity. }
    now rewrite Hc. }
  rewrite Hr. reflexivity.
Qed.

(** * The CPU fields of the result *)

(** A float that is zero, and not below it, rounds to the float zero. *)
Lemma py_round2_zero (q : Q) : (q == 0)%Q -> py_round2 (VFloat q) = VFloat 0.
Proof.
  intros Hq. unfold py_round2.
  assert (Hle : Qle_bool 0 q = true)
    by (apply Qle_bool_iff; rewrite Hq; apply Qle_refl).
  rewrite Hle. cbn [negb andb]. now rewrite (round2_zero q Hq).
Qed.

Lemma zero_ticks_scaled (a b c : Q) : (inject_Z 0 / a * b * c == 0)%Q.
Proof. unfold Qdiv. change (inject_Z 0) with 0%Q. ring. Qed.

Lemma zero_ticks_in_seconds (a : Q) : (inject_Z 0 / a == 0)%Q.
Proof. unfold Qdiv. change (inject_Z 0) with 0%Q. ring. Qed.

(** C1 (the code departs from the claim): [process_cpu] is set to 0 before
    the loop and never assigned again; the ticks that the sampler returns in
    [cur_cpu] go nowhere.  Hence in every result [process_cpu_time] is the
    float zero and [process_cpu_util] is numerically zero, whatever was
    sampled across the process tree, where the claim has the ticks of the
    tree divided by the ticks per second, and their share of the system-wide
    delta. *)
Theorem C1_cpu_fields_ignore_samples
        (h : Host) (cfg : Config) (w : World) (r : LaunchRequest) (res : Dict) :
  snd (run h cfg w r) = Returned res ->
  dict_get "process_cpu_time" res = Some (VFloat 0)
  /\ exists util q,
      dict_get "process_cpu_util" res = Some util
      /\ num_value util = Some q
      /\ (q == 0)%Q.
Proof.
  unfold run.
  destruct (Popen w (args r) (popen_kw h cfg r)) as [e|p];
    cbn [snd]; [discriminate|].
  destruct (kills_caller w _); [discriminate|].
  unfold assemble.
  destruct (exit_code (monitor h r p)) as [code|]; [|discriminate].
  destruct (decode_utf8 Ignore _) as [out|]; [|discriminate].
  destruct (decode_utf8 Ignore _) as [err|]; [|discriminate].
  intros H. injection H as <-. split.
  - change (Some (py_round2 (py_truediv 0 (Zpos (SC_CLK_TCK h))))
            = Some (VFloat 0)).
    unfold py_truediv. cbn [Z.eqb Z.ltb Z.compare andb].
    now rewrite (py_round2_zero _ (zero_ticks_in_seconds _)).
  - destruct (negb (_ =? _)).
    + cbn [dict_get String.eqb Ascii.eqb Bool.eqb].
      unfold py_truediv. cbn [Z.eqb andb].
      destruct (_ <? 0).
      * exists VNegZero, 0%Q. repeat split; reflexivity.
      * cbn [py_mul_pos].
        exists (VFloat 0), 0%Q. split; [|split; reflexivity].
        change (100%Q) with (inject_Z (Zpos 100)).
        now rewrite (py_round2_zero _ (zero_ticks_scaled _ _ _)).
    + exists (VInt 0), (inject_Z 0). repeat split.
Qed.

(** The call at which C1 is seen to fail: a child whose tree has used 250
    ticks on a host with 100 ticks per second, so that the claim has 2.5
    seconds where the code reports none.  The sandbox identity is
    configured, so that the call gets to return. *)
Lemma C1_cpu_fields_ignore_samples_witness :
  let out := run Scenario.posix_host Scenario.sandbox
                 (Scenario.world (Scenario.child Scenario.hello 0 0))
                 (Scenario.request Scenario.echo_hello 5 2048) in
  In (ASample (250, 5000)) (fst out)
  /\ round2 (inject_Z 250 / inject_Z 100) = (5 # 2)%Q
  /\ result_field "process_cpu_time" (snd out) = Some (VFloat 0).
Proof.
  intros out.
  split; [vm_compute; tauto|].
  split; [vm_compute; reflexivity|].
  eassert (E : snd out = Returned _) by (vm_compute; reflexivity).
  destruct (C1_cpu_fields_ignore_samples _ _ _ _ _ E) as [Htime _].
  rewrite E. exact Htime.
Defined.

(** * Process groups: who is launched where, and who is killed *)

(** The last action of a call that got past the launch is the kill. *)
Lemma run_ends_with_reap (h : Host) (cfg : Config) (w : World)
      (r : LaunchRequest) (p : Child) :
  Popen w (args r) (popen_kw h cfg r) = PopenOk p ->
  fst (run h cfg w r)
  = (APopen (args r) (popen_kw h cfg r) :: actions (monitor h r p))
      ++ [reap (process_group_id h w (popen_kw h cfg r) p) p].
Proof. intros H. now rewrite (run_launched h cfg w r p H). Qed.

(** With a sandbox identity the child leads a session of its own, and
    where process groups can be asked for, it is that group, named after
    the child, that is killed. *)
Lemma sandboxed_child_is_killed_by_group (h : Host) (cfg : Config) (w : World)
      (r : LaunchRequest) (p : Child) (uid : Z) :
  SANDBOX_UID cfg = Some uid ->
  has_getpgid h = true ->
  kw_start_new_session (popen_kw h cfg r) = true
  /\ reap (process_group_id h w (popen_kw h cfg r) p) p = AKillpg (pid p).
Proof.
  intros Huid Hpg. unfold popen_kw, process_group_id, getpgid.
  rewrite Huid, Hpg. split; reflexivity.
Qed.

(** Where process groups cannot be asked for, the single process is
    killed, even if the launch has asked for a group. *)
Lemma without_getpgid_single_kill (h : Host) (w : World) (kw : PopenKw)
      (p : Child) :
  has_getpgid h = false ->
  reap (process_group_id h w kw p) p = AKill (pid p).
Proof. intros H. unfold process_group_id. now rewrite H. Qed.

(** C2 (the code departs from the claim): on a POSIX host without a sandbox
    identity the launch asks neither for a new session nor for a new process
    group, so the child stays in the group of the caller; [os.getpgid] is
    there all the same, [process_group_id] is that group, and the kill after
    the loop is a group-wide kill of the caller's own process group. *)
Theorem C2_group_kill_reaches_caller
        (h : Host) (cfg : Config) (w : World) (r : LaunchRequest) (p : Child) :
  os_name h = Posix ->
  has_getpgid h = true ->
  SANDBOX_UID cfg = None ->
  Popen w (args r) (popen_kw h cfg r) = PopenOk p ->
  kw_start_new_session (popen_kw h cfg r) = false
  /\ kw_creationflags (popen_kw h cfg r) = None
  /\ getpgid w (popen_kw h cfg r) p = caller_pgid w
  /\ exists before,
      fst (run h cfg w r) = before ++ [AKillpg (caller_pgid w)].
Proof.
  intros Hos Hpg Huid Hp.
  assert (Hkw : kw_start_new_session (popen_kw h cfg r) = false
                /\ kw_creationflags (popen_kw h cfg r) = None).
  { unfold popen_kw. rewrite Huid, Hos. split; reflexivity. }
  destruct Hkw as [Hsess Hflags].
  assert (Hgrp : getpgid w (popen_kw h cfg r) p = caller_pgid w)
    by (unfold getpgid; now rewrite Hsess).
  repeat split; try assumption.
  eexists. rewrite (run_ends_with_reap h cfg w r p Hp).
  unfold process_group_id. rewrite Hpg, Hgrp. reflexivity.
Qed.

(** [run(["echo", "hello"], timeout_seconds=5)] on such a host, called from
    process group 777. *)
Lemma C2_group_kill_reaches_caller_witness :
  let w := Scenario.world (Scenario.child Scenario.hello 0 0) in
  let r := Scenario.request Scenario.echo_hello 5 2048 in
  caller_pgid w = 777
  /\ exists before,
      fst (run Scenario.posix_host Scenario.no_sandbox w r)
      = before ++ [AKillpg 777].
Proof.
  intros w r. split; [reflexivity|].
  apply (C2_group_kill_reaches_caller
           Scenario.posix_host Scenario.no_sandbox w r
           (Scenario.child Scenario.hello 0 0));
    reflexivity.
Defined.

(** * The decoded streams *)

(** The claim C3 as it is worded, with invalid sequences replaced, fails:
    a child that writes [b"a\xffb"] yields the text "ab", where replacing
    gives "a", U+FFFD, "b". *)
Lemma C3_replace_counterexample :
  let p := Scenario.child Scenario.a_ff_b 1 2 in
  let r := Scenario.request Scenario.echo_hello 5 2048 in
  let captured :=
    List.concat (saved_bytes (stdout_capture (monitor Scenario.posix_host r p))) in
  let out := snd (run Scenario.posix_host Scenario.sandbox (Scenario.world p) r) in
  captured = Scenario.a_ff_b
  /\ decode_utf8 Replace captured = Some [97; 65533; 98]
  /\ result_field "stdout" out = Some (VStr [97; 98])
  /\ result_field "stdout" out
     <> option_map VStr (decode_utf8 Replace captured).
Proof.
  intros p r captured out.
  assert (Hc : captured = Scenario.a_ff_b) by (vm_compute; reflexivity).
  assert (Hd : decode_utf8 Replace captured = Some [97; 65533; 98])
    by (vm_compute; reflexivity).
  assert (Ho : result_field "stdout" out = Some (VStr [97; 98]))
    by (vm_compute; reflexivity).
  repeat split; try assumption.
  rewrite Ho, Hd. cbn [option_map]. intros H. discriminate H.
Qed.

(** C3, amended: the [stdout] and [stderr] of every result are the
    captured chunks of their stream, concatenated and decoded as UTF-8
    with [errors="ignore"]: an invalid sequence is dropped, not replaced,
    and nothing is raised.  The decoding has a result for every byte
    string, so it never fails the call; and a call that gets past the
    launch and outlives its kill does return, the timeout being one
    second or more. *)
Theorem C3_streams_decoded_ignoring_errors
        (h : Host) (cfg : Config) (w : World) (r : LaunchRequest) (p : Child) :
  Popen w (args r) (popen_kw h cfg r) = PopenOk p ->
  (exists out err,
      decode_utf8 Ignore
        (List.concat (saved_bytes (stdout_capture (monitor h r p)))) = Some out
      /\ decode_utf8 Ignore
           (List.concat (saved_bytes (stderr_capture (monitor h r p))))
         = Some err
      /\ (forall res,
             snd (run h cfg w r) = Returned res ->
             dict_get "stdout" res = Some (VStr out)
             /\ dict_get "stderr" res = Some (VStr err)))
  /\ (caller_survives h cfg w r p ->
      1 <= timeout_seconds r ->
      exists res, snd (run h cfg w r) = Returned res)
  /\ snd (run h cfg w r) <> Raised UnicodeDecodeError
  /\ (forall bs, exists s, decode_utf8 Ignore bs = Some s)
  /\ (forall b rest,
         invalid_start b = true ->
         decode_utf8 Ignore (b :: rest) = decode_utf8 Ignore rest).
Proof.
  intros Hp. split; [|split; [|split; [|split]]].
  - destruct (decode_utf8_ignore_total
                (List.concat (saved_bytes (stdout_capture (monitor h r p)))))
      as [out Hout].
    destruct (decode_utf8_ignore_total
                (List.concat (saved_bytes (stderr_capture (monitor h r p)))))
      as [err Herr].
    exists out, err. split; [exact Hout|]. split; [exact Herr|].
    intros res Hres.
    destruct (run_returned_fields h cfg w r p res Hp Hres)
      as (code & out' & err' & util & _ & Hout' & Herr' & ->).
    rewrite Hout in Hout'. rewrite Herr in Herr'.
    injection Hout' as <-. injection Herr' as <-. split; reflexivity.
  - intros Hs Ht. now apply (run_returns h cfg w r p).
  - rewrite (run_launched h cfg w r p Hp). cbn [snd].
    destruct (kills_caller w _); [discriminate|].
    destruct (exit_code (monitor h r p)) as [code|] eqn:Hcode.
    + destruct (assemble_bound h w r 0
                  (get_system_cpu (os_name h) (proc_stat_at_start w))
                  (monitor h r p) code Hcode)
        as (out & err & util & _ & _ & ->).
      discriminate.
    + rewrite (assemble_unbound h w r 0 _ (monitor h r p) Hcode).
      discriminate.
  - exact decode_utf8_ignore_total.
  - intros b rest Hb.
    now rewrite (decode_utf8_invalid_start Ignore b rest Hb).
Qed.

(** The child that writes [b"a\xffb"], under a sandbox identity and a
    timeout of five seconds. *)
Lemma C3_streams_decoded_ignoring_errors_witness :
  let p := Scenario.child Scenario.a_ff_b 1 2 in
  let r := Scenario.request Scenario.echo_hello 5 2048 in
  exists res,
    snd (run Scenario.posix_host Scenario.sandbox (Scenario.world p) r)
    = Returned res
    /\ dict_get "stdout" res = Some (VStr [97; 98])
    /\ dict_get "stderr" res = Some (VStr []).
Proof.
  intros p r.
  destruct (C3_streams_decoded_ignoring_errors
              Scenario.posix_host Scenario.sandbox (Scenario.world p) r p
              eq_refl)
    as ((out & err & Hout & Herr & Hfields) & Hreturns & _).
  destruct Hreturns as [res Hres]; [reflexivity | cbn; lia |].
  exists res. split; [exact Hres|].
  destruct (Hfields res Hres) as [Ho He].
  assert (Hout' : Some out = Some [97; 98])
    by (rewrite <- Hout; vm_compute; reflexivity).
  assert (Herr' : Some err = Some [])
    by (rewrite <- Herr; vm_compute; reflexivity).
  injection Hout' as ->. injection Herr' as ->. now split.
Defined.

(** * Exit status and timeout *)

(** The two status fields of a result, read off the [exit_code] that the
    loop leaves. *)
Lemma run_status_fields (h : Host) (cfg : Config) (w : World)
      (r : LaunchRequest) (p : Child) (res : Dict) :
  Popen w (args r) (popen_kw h cfg r) = PopenOk p ->
  snd (run h cfg w r) = Returned res ->
  exists code,
    exit_code (loop_of h r p) = Some code
    /\ dict_get "timeout" res
       = Some (VBool match code with None => true | Some _ => false end)
    /\ dict_get "exit_code" res
       = Some (VInt match code with Some c => c | None => -1 end).
Proof.
  intros Hp Hres.
  destruct (run_returned_fields h cfg w r p res Hp Hres)
    as (code & out & err & util & Hcode & _ & _ & ->).
  exists code. rewrite <- monitor_exit_code. now repeat split.
Qed.

(** The claim C4 as it is worded, for a child that exits before the
    deadline, fails: under a timeout of one second, a child that is
    running at the tenth and last poll and exits during the sleep that
    follows it has exited, with status 0, by the time the ten ticks are
    over; the result has [timeout=True] and [exit_code=-1]. *)
Lemma C4_exit_in_final_sleep_counterexample :
  let p := Scenario.child Scenario.hello 10 0 in
  let r := Scenario.request Scenario.echo_hello 1 2048 in
  let call := run Scenario.posix_host Scenario.sandbox (Scenario.world p) r in
  max_iterations r = 10%nat
  /\ poll p 9 = None
  /\ poll p (max_iterations r) = Some 0
  /\ sleeps (fst call) = 10%nat
  /\ result_field "timeout" (snd call) = Some (VBool true)
  /\ result_field "exit_code" (snd call) = Some (VInt (-1))
  /\ ~ (result_field "timeout" (snd call) = Some (VBool false)
        /\ result_field "exit_code" (snd call) = Some (VInt 0)).
Proof.
  intros p r call.
  assert (Hto : result_field "timeout" (snd call) = Some (VBool true))
    by (vm_compute; reflexivity).
  repeat split; try (vm_compute; reflexivity).
  intros [H _]. rewrite Hto in H. discriminate H.
Qed.

(** C4, amended: the [timeout] of every result is true exactly when the
    poll found no exit status at any tick of the budget, and then
    [exit_code] is -1; and when a poll within the budget finds the child
    exited, for the first time at tick [k], [timeout] is false and
    [exit_code] is the status found.  A call that gets past the launch and
    outlives its kill does return, the timeout being one second or
    more. *)
Theorem C4_timeout_iff_no_exit_status
        (h : Host) (cfg : Config) (w : World) (r : LaunchRequest) (p : Child) :
  Popen w (args r) (popen_kw h cfg r) = PopenOk p ->
  (forall res,
      snd (run h cfg w r) = Returned res ->
      (exists b c,
          dict_get "timeout" res = Some (VBool b)
          /\ dict_get "exit_code" res = Some (VInt c))
      /\ (dict_get "timeout" res = Some (VBool true)
          <-> forall j, (j < max_iterations r)%nat -> poll p j = None)
      /\ (dict_get "timeout" res = Some (VBool true)
          -> dict_get "exit_code" res = Some (VInt (-1)))
      /\ (forall k c,
             (k < max_iterations r)%nat ->
             (forall j, (j < k)%nat -> poll p j = None) ->
             poll p k = Some c ->
             dict_get "timeout" res = Some (VBool false)
             /\ dict_get "exit_code" res = Some (VInt c)))
  /\ (caller_survives h cfg w r p ->
      1 <= timeout_seconds r ->
      exists res, snd (run h cfg w r) = Returned res).
Proof.
  intros Hp. split; [|intros Hs Ht; now apply (run_returns h cfg w r p)].
  intros res Hres.
  destruct (run_status_fields h cfg w r p res Hp Hres)
    as (code & Hcode & Hto & Hec).
  unfold loop_of in Hcode.
  assert (Hn : (0 < max_iterations r)%nat).
  { destruct (max_iterations r); [discriminate Hcode | lia]. }
  assert (Hexited : forall k c,
             (k < max_iterations r)%nat ->
             (forall j, (j < k)%nat -> poll p j = None) ->
             poll p k = Some c ->
             code = Some c).
  { intros k c Hk Hrun Hexit.
    destruct (poll_loop_exited (negb (is_nt (os_name h))) (os_name h)
                               (max_output_size r) p k (max_iterations r) 0
                               initial_state c Hk) as [_ Hc].
    - intros j Hj. apply Hrun. lia.
    - exact Hexit.
    - rewrite Hc in Hcode. now injection Hcode as <-. }
  assert (Hrunning : (forall j, (j < max_iterations r)%nat -> poll p j = None) ->
                     code = None).
  { intros Hrun.
    destruct (poll_loop_exhausted (negb (is_nt (os_name h))) (os_name h)
                                  (max_output_size r) p (max_iterations r) 0
                                  initial_state) as [_ Hc].
    - intros j Hj. apply Hrun. lia.
    - rewrite (Hc Hn) in Hcode. now injection Hcode as <-. }
  split; [eexists; eexists; split; [exact Hto | exact Hec]|].
  split; [|split].
  - split.
    + intros Htrue.
      destruct (exit_or_running p (max_iterations r) 0)
        as [(k & c & Hk & Hrun & Hexit)|Hrun].
      * cbn [Nat.add] in Hexit.
        assert (Hc : code = Some c)
          by (apply (Hexited k c Hk); [intros j Hj; apply Hrun; lia | exact Hexit]).
        rewrite Hc, Htrue in Hto. discriminate Hto.
      * intros j Hj. apply Hrun. lia.
    + intros Hrun. rewrite Hto, (Hrunning Hrun). reflexivity.
  - intros Htrue. rewrite Hec. rewrite Hto in Htrue.
    destruct code; [discriminate Htrue | reflexivity].
  - intros k c Hk Hrun Hexit.
    rewrite Hto, Hec, (Hexited k c Hk Hrun Hexit). split; reflexivity.
Qed.

(** A child that is found exited with status 2 at the second poll. *)
Lemma C4_timeout_iff_no_exit_status_witness :
  exists res,
    snd (run Scenario.posix_host Scenario.sandbox
             (Scenario.world (Scenario.child Scenario.hello 1 2))
             (Scenario.request Scenario.echo_hello 5 2048))
    = Returned res
    /\ dict_get "timeout" res = Some (VBool false)
    /\ dict_get "exit_code" res = Some (VInt 2).
Proof.
  destruct (C4_timeout_iff_no_exit_status
              Scenario.posix_host Scenario.sandbox
              (Scenario.world (Scenario.child Scenario.hello 1 2))
              (Scenario.request Scenario.echo_hello 5 2048)
              (Scenario.child Scenario.hello 1 2) eq_refl)
    as [Hfields Hreturns].
  destruct Hreturns as [res Hres]; [reflexivity | cbn; lia |].
  exists res. split; [exact Hres|].
  apply (proj2 (proj2 (proj2 (Hfields res Hres))) 1%nat 2).
  - vm_compute; lia.
  - intros j Hj. assert (j = 0%nat) as -> by lia. reflexivity.
  - reflexivity.
Defined.

(** * The cap on captured output *)

Section CaptureInLoop.

Variable nonblocking : bool.
Variable o : OsName.
Variable m : Z.
Variable p : Child.

Lemma tick_stdout_capture (i : nat) (s : LoopState) :
  stdout_capture (tick nonblocking o m p i s)
  = if nonblocking
    then accept m (fst (read_nonblocking MAX_BYTES_PER_READ
                          (stdout_pipe s ++ stdout_written p i)))
                (stdout_capture s)
    else stdout_capture s.
Proof. unfold tick. now destruct nonblocking. Qed.

Lemma tick_stderr_capture (i : nat) (s : LoopState) :
  stderr_capture (tick nonblocking o m p i s)
  = if nonblocking
    then accept m (fst (read_nonblocking MAX_BYTES_PER_READ
                          (stderr_pipe s ++ stderr_written p i)))
                (stderr_capture s)
    else stderr_capture s.
Proof. unfold tick. now destruct nonblocking. Qed.

Lemma tick_capture_inv (i : nat) (s : LoopState) :
  capture_inv m (stdout_capture s) /\ capture_inv m (stderr_capture s) ->
  capture_inv m (stdout_capture (tick nonblocking o m p i s))
  /\ capture_inv m (stderr_capture (tick nonblocking o m p i s)).
Proof.
  intros [Hout Herr].
  rewrite tick_stdout_capture, tick_stderr_capture.
  destruct nonblocking; [|now split].
  split; apply accept_inv; auto using read_nonblocking_len.
Qed.

Lemma poll_loop_capture_inv (n : nat) :
  forall (i : nat) (s : LoopState),
    capture_inv m (stdout_capture s) /\ capture_inv m (stderr_capture s) ->
    capture_inv m (stdout_capture (poll_loop nonblocking o m p n i s))
    /\ capture_inv m (stderr_capture (poll_loop nonblocking o m p n i s)).
Proof.
  induction n as [|n IH]; intros i s Hs; [exact Hs|].
  cbn [poll_loop]. pose proof (tick_capture_inv i s Hs) as Ht.
  destruct (exit_code (tick nonblocking o m p i s)) as [[c|]|];
    [exact Ht | |]; apply IH; exact Ht.
Qed.

(** A stream that is at its cap stays as it is through the rest of the
    loop, whatever the child goes on writing. *)
Lemma poll_loop_stdout_at_cap (n : nat) :
  forall (i : nat) (s : LoopState),
    m <= bytes_read (stdout_capture s) ->
    stdout_capture (poll_loop nonblocking o m p n i s) = stdout_capture s.
Proof.
  induction n as [|n IH]; intros i s Hs; [reflexivity|].
  assert (Ht : stdout_capture (tick nonblocking o m p i s) = stdout_capture s).
  { rewrite tick_stdout_capture.
    destruct nonblocking; [now apply accept_at_cap | reflexivity]. }
  cbn [poll_loop].
  destruct (exit_code (tick nonblocking o m p i s)) as [[c|]|];
    [exact Ht | |];
    (rewrite IH; cbn [log stdout_capture]; [exact Ht | now rewrite Ht]).
Qed.

Lemma poll_loop_stderr_at_cap (n : nat) :
  forall (i : nat) (s : LoopState),
    m <= bytes_read (stderr_capture s) ->
    stderr_capture (poll_loop nonblocking o m p n i s) = stderr_capture s.
Proof.
  induction n as [|n IH]; intros i s Hs; [reflexivity|].
  assert (Ht : stderr_capture (tick nonblocking o m p i s) = stderr_capture s).
  { rewrite tick_stderr_capture.
    destruct nonblocking; [now apply accept_at_cap | reflexivity]. }
  cbn [poll_loop].
  destruct (exit_code (tick nonblocking o m p i s)) as [[c|]|];
    [exact Ht | |];
    (rewrite IH; cbn [log stderr_capture]; [exact Ht | now rewrite Ht]).
Qed.

End CaptureInLoop.

Lemma monitor_capture_inv (h : Host) (r : LaunchRequest) (p : Child) :
  capture_inv (max_output_size r) (stdout_capture (monitor h r p))
  /\ capture_inv (max_output_size r) (stderr_capture (monitor h r p)).
Proof.
  unfold monitor. destruct (is_nt (os_name h)).
  - cbn [stdout_capture stderr_capture].
    split; apply read_stream_inv, capture_inv_empty.
  - apply poll_loop_capture_inv. split; apply capture_inv_empty.
Qed.

Lemma capture_inv_within_cap (m : Z) (c : Capture) :
  0 <= m -> capture_inv m c -> within_cap m c.
Proof.
  intros Hm [Hcount Hcap]. split; [exact Hcount|].
  rewrite <- Hcount. destruct Hcap as [-> | Hlt]; lia.
Qed.

(** C5: for a cap that is not negative, on either branch and after any
    number of ticks, each stream's counter is the byte length of what was
    captured and is at most the cap plus one read of 1024 bytes; and a
    stream whose counter has reached the cap takes nothing more, neither in
    the loop (where what is read is dropped) nor in a reader thread (which
    stops reading). *)
Theorem C5_capture_within_one_read_of_cap
        (h : Host) (r : LaunchRequest) (p : Child) :
  0 <= max_output_size r ->
  Z.of_nat MAX_BYTES_PER_READ = 1024
  /\ within_cap (max_output_size r) (stdout_capture (monitor h r p))
  /\ within_cap (max_output_size r) (stderr_capture (monitor h r p))
  /\ (forall this_read c,
         max_output_size r <= bytes_read c ->
         accept (max_output_size r) this_read c = c)
  /\ (forall nb o n i s,
         max_output_size r <= bytes_read (stdout_capture s) ->
         stdout_capture (poll_loop nb o (max_output_size r) p n i s)
         = stdout_capture s)
  /\ (forall nb o n i s,
         max_output_size r <= bytes_read (stderr_capture s) ->
         stderr_capture (poll_loop nb o (max_output_size r) p n i s)
         = stderr_capture s)
  /\ (forall steps stream c,
         max_output_size r <= bytes_read c ->
         read_stream steps (max_output_size r) stream c = c).
Proof.
  intros Hm. destruct (monitor_capture_inv h r p) as [Hout Herr].
  split; [reflexivity|].
  split; [now apply capture_inv_within_cap|].
  split; [now apply capture_inv_within_cap|].
  split; [intros; now apply accept_at_cap|].
  split; [intros; now apply poll_loop_stdout_at_cap|].
  split; [intros; now apply poll_loop_stderr_at_cap|].
  intros; now apply read_stream_at_cap.
Qed.

(** A child that prints 5000 bytes, under a cap of 100: one read of 1024
    bytes is taken, the rest is dropped. *)
Lemma C5_capture_within_one_read_of_cap_witness :
  let r := Scenario.request Scenario.echo_hello 5 100 in
  let p := Scenario.child Scenario.flood 2 0 in
  0 <= max_output_size r
  /\ len (List.concat
            (saved_bytes (stdout_capture (monitor Scenario.posix_host r p))))
     <= 100 + 1024.
Proof.
  intros r p.
  assert (Hm : 0 <= max_output_size r) by (cbn; lia).
  split; [exact Hm|].
  exact (proj2 (proj1 (proj2 (C5_capture_within_one_read_of_cap
                                Scenario.posix_host r p Hm)))).
Defined.

(** * Peak memory *)

Lemma in_sampled_memory (t : list Action) (cpu mem : Z) :
  In (ASample (cpu, mem)) t -> In mem (sampled_memory t).
Proof.
  intros H. unfold sampled_memory. apply in_flat_map.
  exists (ASample (cpu, mem)). split; [exact H | now left].
Qed.

(** Launch, joins and kill are no samplings. *)
Lemma run_sampled_memory (h : Host) (cfg : Config) (w : World)
      (r : LaunchRequest) (p : Child) :
  Popen w (args r) (popen_kw h cfg r) = PopenOk p ->
  sampled_memory (fst (run h cfg w r))
  = sampled_memory (actions (loop_of h r p)).
Proof.
  intros Hp. rewrite (run_launched h cfg w r p Hp). cbn [fst].
  rewrite monitor_actions.
  generalize (process_group_id h w (popen_kw h cfg r) p). intros g.
  change (APopen (args r) (popen_kw h cfg r)
            :: (actions (loop_of h r p) ++ joins h) ++ [reap g p])
    with ([APopen (args r) (popen_kw h cfg r)]
            ++ (actions (loop_of h r p) ++ joins h) ++ [reap g p]).
  rewrite !sampled_memory_app.
  assert (Hj : sampled_memory (joins h) = [])
    by (unfold joins; now destruct (is_nt (os_name h))).
  assert (Hk : sampled_memory [reap g p] = [])
    by (now destruct g).
  rewrite Hj, Hk. cbn [sampled_memory flat_map app]. now rewrite !app_nil_r.
Qed.

(** C6: [process_peak_memory] starts at 0; no tick lowers it; after the
    loop it is the largest of the memory figures sampled (and 0 if none was
    larger), hence at least every single one of them; and that is the value
    of every result.  A call that gets past the launch and outlives its
    kill does return, the timeout being one second or more. *)
Theorem C6_peak_memory_is_running_maximum
        (h : Host) (cfg : Config) (w : World) (r : LaunchRequest) (p : Child) :
  Popen w (args r) (popen_kw h cfg r) = PopenOk p ->
  let peak := process_peak_memory (monitor h r p) in
  process_peak_memory initial_state = 0
  /\ (forall nb o i s,
         process_peak_memory s
         <= process_peak_memory (tick nb o (max_output_size r) p i s))
  /\ (forall nb o n i s,
         process_peak_memory s
         <= process_peak_memory (poll_loop nb o (max_output_size r) p n i s))
  /\ peak = max_from_zero (sampled_memory (fst (run h cfg w r)))
  /\ (forall cpu mem,
         In (ASample (cpu, mem)) (fst (run h cfg w r)) -> mem <= peak)
  /\ (forall res,
         snd (run h cfg w r) = Returned res ->
         dict_get "process_peak_memory" res = Some (VInt peak))
  /\ (caller_survives h cfg w r p ->
      1 <= timeout_seconds r ->
      exists res, snd (run h cfg w r) = Returned res).
Proof.
  intros Hp peak.
  assert (Hmax : peak = max_from_zero (sampled_memory (fst (run h cfg w r)))).
  { subst peak. rewrite monitor_peak, (run_sampled_memory h cfg w r p Hp).
    apply poll_loop_peak. reflexivity. }
  split; [reflexivity|].
  split; [intros; apply tick_peak_mono|].
  split; [intros; apply poll_loop_peak_mono|].
  split; [exact Hmax|].
  split; [|split].
  - intros cpu mem Hin. rewrite Hmax.
    apply max_from_zero_ge. now apply (in_sampled_memory _ cpu).
  - intros res Hres.
    destruct (run_returned_fields h cfg w r p res Hp Hres)
      as (code & out & err & util & _ & _ & _ & ->).
    reflexivity.
  - intros Hs Ht. now apply (run_returns h cfg w r p).
Qed.

(** A child whose tree is sampled at 5000 kB on both ticks it lives. *)
Lemma C6_peak_memory_is_running_maximum_witness :
  let w := Scenario.world (Scenario.child Scenario.hello 1 2) in
  let r := Scenario.request Scenario.echo_hello 5 2048 in
  In (ASample (250, 5000)) (fst (run Scenario.posix_host Scenario.sandbox w r))
  /\ 5000 <= process_peak_memory
               (monitor Scenario.posix_host r (Scenario.child Scenario.hello 1 2))
  /\ exists res,
      snd (run Scenario.posix_host Scenario.sandbox w r) = Returned res
      /\ dict_get "process_peak_memory" res
         = Some (VInt (process_peak_memory
                         (monitor Scenario.posix_host r
                                  (Scenario.child Scenario.hello 1 2)))).
Proof.
  intros w r.
  assert (Hin : In (ASample (250, 5000))
                   (fst (run Scenario.posix_host Scenario.sandbox w r)))
    by (vm_compute; tauto).
  pose proof (C6_peak_memory_is_running_maximum
                Scenario.posix_host Scenario.sandbox w r
                (Scenario.child Scenario.hello 1 2) eq_refl)
    as (_ & _ & _ & _ & Hge & Hret & Hreturns).
  split; [exact Hin|]. split; [exact (Hge 250 5000 Hin)|].
  destruct Hreturns as [res Hres]; [reflexivity | cbn; lia |].
  exists res. split; [exact Hres | exact (Hret res Hres)].
Defined.

(** * The tick budget *)

Lemma run_trace_exited (h : Host) (cfg : Config) (w : World)
      (r : LaunchRequest) (p : Child) (k : nat) (c : Z) :
  Popen w (args r) (popen_kw h cfg r) = PopenOk p ->
  (k < max_iterations r)%nat ->
  running p 0 k ->
  poll p k = Some c ->
  fst (run h cfg w r) = trace_exited h cfg w r p k.
Proof.
  intros Hp Hk Hrun Hexit.
  rewrite (run_launched h cfg w r p Hp). cbn [fst].
  rewrite monitor_actions. unfold loop_of, trace_exited.
  destruct (poll_loop_exited (negb (is_nt (os_name h))) (os_name h)
                             (max_output_size r) p k (max_iterations r) 0
                             initial_state c Hk Hrun Hexit) as [Hact _].
  rewrite Hact. cbn [initial_state actions Nat.add app].
  now rewrite <- !app_assoc.
Qed.

Lemma run_trace_timed_out (h : Host) (cfg : Config) (w : World)
      (r : LaunchRequest) (p : Child) :
  Popen w (args r) (popen_kw h cfg r) = PopenOk p ->
  running p 0 (max_iterations r) ->
  fst (run h cfg w r) = trace_timed_out h cfg w r p.
Proof.
  intros Hp Hrun.
  rewrite (run_launched h cfg w r p Hp). cbn [fst].
  rewrite monitor_actions. unfold loop_of, trace_timed_out.
  destruct (poll_loop_exhausted (negb (is_nt (os_name h))) (os_name h)
                                (max_output_size r) p (max_iterations r) 0
                                initial_state Hrun) as [Hact _].
  rewrite Hact. cbn [initial_state actions app].
  now rewrite <- !app_assoc.
Qed.

Lemma polls_joins (h : Host) : polls (joins h) = 0%nat.
Proof. unfold joins. now destruct (is_nt (os_name h)). Qed.

Lemma sleeps_joins (h : Host) : sleeps (joins h) = 0%nat.
Proof. unfold joins. now destruct (is_nt (os_name h)). Qed.

Lemma polls_reap (g : option Z) (p : Child) : polls [reap g p] = 0%nat.
Proof. now destruct g. Qed.

Lemma sleeps_reap (g : option Z) (p : Child) : sleeps [reap g p] = 0%nat.
Proof. now destruct g. Qed.

Lemma trace_exited_counts (h : Host) (cfg : Config) (w : World)
      (r : LaunchRequest) (p : Child) (k : nat) :
  polls (trace_exited h cfg w r p k) = S k
  /\ sleeps (trace_exited h cfg w r p k) = k.
Proof.
  unfold trace_exited.
  change (APopen ?a ?kw :: ?l) with ([APopen a kw] ++ l).
  rewrite !polls_app, !sleeps_app, polls_waiting, sleeps_waiting,
    polls_joins, sleeps_joins, polls_reap, sleeps_reap.
  cbn. lia.
Qed.

Lemma trace_timed_out_counts (h : Host) (cfg : Config) (w : World)
      (r : LaunchRequest) (p : Child) :
  polls (trace_timed_out h cfg w r p) = max_iterations r
  /\ sleeps (trace_timed_out h cfg w r p) = max_iterations r.
Proof.
  unfold trace_timed_out.
  change (APopen ?a ?kw :: ?l) with ([APopen a kw] ++ l).
  rewrite !polls_app, !sleeps_app, polls_waiting, sleeps_waiting,
    polls_joins, sleeps_joins, polls_reap, sleeps_reap.
  cbn. lia.
Qed.

(** C7: the loop makes at most [timeout_seconds * 10] iterations, each with
    one poll and at most one sleep; when the child is first found exited at
    tick [k] of the budget the loop stops right after that poll, without
    the sleep; when the child is running at every tick of the budget the
    loop makes them all and the kill follows with no further poll or sleep.
    The loop is by recursion on the budget, so it ends in every case. *)
Theorem C7_loop_within_tick_budget
        (h : Host) (cfg : Config) (w : World) (r : LaunchRequest) (p : Child) :
  Popen w (args r) (popen_kw h cfg r) = PopenOk p ->
  let trace := fst (run h cfg w r) in
  max_iterations r = Z.to_nat (timeout_seconds r * 10)
  /\ (polls trace <= max_iterations r)%nat
  /\ (sleeps trace <= max_iterations r)%nat
  /\ (forall k c,
         (k < max_iterations r)%nat ->
         (forall j, (j < k)%nat -> poll p j = None) ->
         poll p k = Some c ->
         trace = trace_exited h cfg w r p k
         /\ polls trace = S k /\ sleeps trace = k)
  /\ ((forall j, (j < max_iterations r)%nat -> poll p j = None) ->
      trace = trace_timed_out h cfg w r p
      /\ polls trace = max_iterations r /\ sleeps trace = max_iterations r).
Proof.
  intros Hp trace. subst trace.
  assert (Hexited : forall k c,
             (k < max_iterations r)%nat ->
             (forall j, (j < k)%nat -> poll p j = None) ->
             poll p k = Some c ->
             fst (run h cfg w r) = trace_exited h cfg w r p k
             /\ polls (fst (run h cfg w r)) = S k
             /\ sleeps (fst (run h cfg w r)) = k).
  { intros k c Hk Hrun Hexit.
    assert (Hrun' : running p 0 k) by (intros j Hj; apply Hrun; lia).
    rewrite (run_trace_exited h cfg w r p k c Hp Hk Hrun' Hexit).
    split; [reflexivity | apply trace_exited_counts]. }
  assert (Htimed : (forall j, (j < max_iterations r)%nat -> poll p j = None) ->
                   fst (run h cfg w r) = trace_timed_out h cfg w r p
                   /\ polls (fst (run h cfg w r)) = max_iterations r
                   /\ sleeps (fst (run h cfg w r)) = max_iterations r).
  { intros Hrun.
    assert (Hrun' : running p 0 (max_iterations r))
      by (intros j Hj; apply Hrun; lia).
    rewrite (run_trace_timed_out h cfg w r p Hp Hrun').
    split; [reflexivity | apply trace_timed_out_counts]. }
  split; [reflexivity|].
  assert (Hbound : (polls (fst (run h cfg w r)) <= max_iterations r
                    /\ sleeps (fst (run h cfg w r)) <= max_iterations r)%nat).
  { destruct (exit_or_running p (max_iterations r) 0)
      as [(k & c & Hk & Hrun & Hexit)|Hrun].
    - cbn [Nat.add] in Hexit.
      destruct (Hexited k c Hk) as (_ & Hpolls & Hsleeps);
        [intros j Hj; apply Hrun; lia | exact Hexit | lia].
    - destruct Htimed as (_ & Hpolls & Hsleeps);
        [intros j Hj; apply Hrun; lia | lia]. }
  destruct Hbound as [Hpolls Hsleeps].
  split; [exact Hpolls|]. split; [exact Hsleeps|].
  split; [exact Hexited | exact Htimed].
Qed.

(** A child found exited at the second tick of a budget of fifty, and one
    that outlives a budget of ten. *)
Lemma C7_loop_within_tick_budget_witness :
  (polls (fst (run Scenario.posix_host Scenario.sandbox
                   (Scenario.world (Scenario.child Scenario.hello 1 2))
                   (Scenario.request Scenario.echo_hello 5 2048))) = 2
   /\ sleeps (fst (run Scenario.posix_host Scenario.sandbox
                       (Scenario.world (Scenario.child Scenario.hello 1 2))
                       (Scenario.request Scenario.echo_hello 5 2048))) = 1)%nat
  /\ (polls (fst (run Scenario.posix_host Scenario.sandbox
                      (Scenario.world Scenario.sleeper)
                      (Scenario.request Scenario.echo_hello 1 2048))) = 10)%nat.
Proof.
  split.
  - refine (proj2 (proj1 (proj2 (proj2 (proj2
              (C7_loop_within_tick_budget
                 Scenario.posix_host Scenario.sandbox
                 (Scenario.world (Scenario.child Scenario.hello 1 2))
                 (Scenario.request Scenario.echo_hello 5 2048)
                 (Scenario.child Scenario.hello 1 2) eq_refl))))
              1%nat 2 _ _ eq_refl)).
    + vm_compute; lia.
    + intros j Hj. assert (j = 0%nat) as -> by lia. reflexivity.
  - refine (proj1 (proj2 (proj2 (proj2 (proj2 (proj2
              (C7_loop_within_tick_budget
                 Scenario.posix_host Scenario.sandbox
                 (Scenario.world Scenario.sleeper)
                 (Scenario.request Scenario.echo_hello 1 2048)
                 Scenario.sleeper eq_refl)))) _))).
    intros j _. reflexivity.
Defined.

(** * Launch failure, and the shape of the result *)

(** On a POSIX host without a sandbox identity the kill of the call is a
    kill of the caller. *)
Lemma unsandboxed_posix_kills_caller (h : Host) (cfg : Config) (w : World)
      (r : LaunchRequest) (p : Child) :
  os_name h = Posix ->
  has_getpgid h = true ->
  SANDBOX_UID cfg = None ->
  kills_caller w (reap (process_group_id h w (popen_kw h cfg r) p) p) = true.
Proof.
  intros Hos Hpg Huid. unfold process_group_id, getpgid, popen_kw.
  rewrite Hpg, Huid. cbn [kw_start_new_session reap kills_caller].
  apply Z.eqb_refl.
Qed.

(** What does hold of the two halves of C8: a launch that raises is
    passed on and nothing else is done; a call that gets past the launch
    and outlives its kill returns a record with the nine keys, the timeout
    being one second or more. *)
Lemma launch_failure_or_complete_result
      (h : Host) (cfg : Config) (w : World) (r : LaunchRequest) :
  (forall e,
      Popen w (args r) (popen_kw h cfg r) = PopenRaises e ->
      run h cfg w r = ([APopen (args r) (popen_kw h cfg r)], Raised e))
  /\ (forall p,
         Popen w (args r) (popen_kw h cfg r) = PopenOk p ->
         caller_survives h cfg w r p ->
         1 <= timeout_seconds r ->
         exists res,
           snd (run h cfg w r) = Returned res
           /\ dict_keys res = RESULT_KEYS).
Proof.
  split.
  - intros e He. now apply run_launch_failed.
  - intros p Hp Hs Ht.
    destruct (run_returns h cfg w r p Hp Hs Ht) as [res Hres].
    exists res. split; [exact Hres|].
    destruct (run_returned_fields h cfg w r p res Hp Hres)
      as (code & out & err & util & _ & _ & _ & ->).
    reflexivity.
Qed.

(** C8 (the code departs from the claim): on a POSIX host without a
    sandbox identity a call that gets past the launch, whatever its
    timeout, ends with the SIGKILL that it sends to its own process group:
    the launch has not raised, and yet no result is returned, nor is
    anything raised. *)
Theorem C8_killed_caller_returns_nothing
        (h : Host) (cfg : Config) (w : World) (r : LaunchRequest) (p : Child) :
  os_name h = Posix ->
  has_getpgid h = true ->
  SANDBOX_UID cfg = None ->
  Popen w (args r) (popen_kw h cfg r) = PopenOk p ->
  snd (run h cfg w r) = CallerKilled
  /\ (forall res, snd (run h cfg w r) <> Returned res)
  /\ (forall e, snd (run h cfg w r) <> Raised e)
  /\ exists before,
      fst (run h cfg w r) = before ++ [AKillpg (caller_pgid w)].
Proof.
  intros Hos Hpg Huid Hp.
  pose proof (unsandboxed_posix_kills_caller h cfg w r p Hos Hpg Huid) as Hk.
  pose proof (run_killed h cfg w r p Hp Hk) as Hout.
  rewrite Hout. split; [reflexivity|].
  split; [discriminate|]. split; [discriminate|].
  eexists. rewrite (run_launched h cfg w r p Hp). cbn [fst].
  unfold process_group_id, getpgid, popen_kw. rewrite Hpg, Huid.
  cbn [kw_start_new_session reap]. rewrite app_comm_cons. reflexivity.
Qed.

(** [run(["echo", "hello"], timeout_seconds=5)] on such a host. *)
Lemma C8_killed_caller_returns_nothing_witness :
  snd (run Scenario.posix_host Scenario.no_sandbox
           (Scenario.world (Scenario.child Scenario.hello 0 0))
           (Scenario.request Scenario.echo_hello 5 2048))
  = CallerKilled.
Proof.
  exact (proj1 (C8_killed_caller_returns_nothing
                  Scenario.posix_host Scenario.no_sandbox
                  (Scenario.world (Scenario.child Scenario.hello 0 0))
                  (Scenario.request Scenario.echo_hello 5 2048)
                  (Scenario.child Scenario.hello 0 0)
                  eq_refl eq_refl eq_refl eq_refl)).
Defined.

(** * The shell flag *)

(** C9: two calls that differ in the [shell] flag only do the same and
    return the same, on every host and in every world; the launch is made
    with [shell=False] whatever the flag. *)
Theorem C9_shell_flag_has_no_effect
        (h : Host) (cfg : Config) (w : World)
        (a : list string) (t m : Z) (e : option Env) (c : option string)
        (b1 b2 : bool) :
  run h cfg w {| args := a; timeout_seconds := t; max_output_size := m;
                 env := e; shell := b1; cwd := c |}
  = run h cfg w {| args := a; timeout_seconds := t; max_output_size := m;
                   env := e; shell := b2; cwd := c |}
  /\ kw_shell (popen_kw h cfg
                 {| args := a; timeout_seconds := t; max_output_size := m;
                    env := e; shell := b1; cwd := c |}) = false.
Proof.
  split.
  - unfold run, popen_kw, monitor, assemble, max_iterations.
    cbn [args timeout_seconds max_output_size env cwd]. reflexivity.
  - unfold popen_kw. now destruct (SANDBOX_UID cfg).
Qed.

(** * The binding of [exit_code] *)

(** C10 (the code departs from the claim): in a call that gets past the
    launch, a timeout of one second or more makes the loop poll at least
    once, so that [exit_code] is bound after the loop, and a timeout of
    zero or less leaves the loop body unrun and [exit_code] unbound, as
    the claim has it.  What follows differs: the result is returned, or
    the read of the unbound variable raises, only in a call that outlives
    its own kill; on a POSIX host without a sandbox identity the caller is
    killed before [exit_code] is read, and nothing is returned. *)
Theorem C10_exit_code_bound_iff_loop_runs
        (h : Host) (cfg : Config) (w : World) (r : LaunchRequest) (p : Child) :
  Popen w (args r) (popen_kw h cfg r) = PopenOk p ->
  (1 <= timeout_seconds r ->
   (1 <= polls (fst (run h cfg w r)))%nat
   /\ exit_code (monitor h r p) <> None
   /\ (caller_survives h cfg w r p ->
       exists res, snd (run h cfg w r) = Returned res))
  /\ (timeout_seconds r <= 0 ->
      polls (fst (run h cfg w r)) = 0%nat
      /\ loop_of h r p = initial_state
      /\ exit_code (monitor h r p) = None
      /\ (caller_survives h cfg w r p ->
          snd (run h cfg w r) = Raised (UnboundLocalError "exit_code")))
  /\ (os_name h = Posix ->
      has_getpgid h = true ->
      SANDBOX_UID cfg = None ->
      snd (run h cfg w r) = CallerKilled).
Proof.
  intros Hp. split; [|split].
  - intros Ht. pose proof (max_iterations_pos r Ht) as Hn.
    destruct (poll_loop_binds (negb (is_nt (os_name h))) (os_name h)
                              (max_output_size r) p (max_iterations r) 0
                              initial_state Hn) as [code Hcode].
    fold (loop_of h r p) in Hcode. rewrite <- monitor_exit_code in Hcode.
    split; [|split].
    + destruct (exit_or_running p (max_iterations r) 0)
        as [(k & c & Hk & Hrun & Hexit)|Hrun].
      * rewrite (run_trace_exited h cfg w r p k c Hp Hk Hrun Hexit).
        destruct (trace_exited_counts h cfg w r p k) as [-> _]. lia.
      * rewrite (run_trace_timed_out h cfg w r p Hp Hrun).
        destruct (trace_timed_out_counts h cfg w r p) as [-> _]. lia.
    + rewrite Hcode. discriminate.
    + intros Hs. now apply (run_returns h cfg w r p).
  - intros Ht. pose proof (max_iterations_zero r Ht) as Hn.
    assert (Hloop : loop_of h r p = initial_state)
      by (unfold loop_of; now rewrite Hn).
    assert (Hcode : exit_code (monitor h r p) = None)
      by (now rewrite monitor_exit_code, Hloop).
    split; [|split; [exact Hloop | split; [exact Hcode|]]].
    + assert (Hrun : running p 0 (max_iterations r))
        by (rewrite Hn; intros j Hj; lia).
      rewrite (run_trace_timed_out h cfg w r p Hp Hrun).
      destruct (trace_timed_out_counts h cfg w r p) as [-> _]. exact Hn.
    + intros Hs. rewrite (run_survived h cfg w r p Hp Hs).
      now apply assemble_unbound.
  - intros Hos Hpg Huid. apply (run_killed h cfg w r p Hp).
    now apply unsandboxed_posix_kills_caller.
Qed.

(** [run(["echo", "hello"], timeout_seconds=5)] on a POSIX host without a
    sandbox identity: the loop polls, and the caller is killed. *)
Lemma C10_exit_code_bound_iff_loop_runs_witness :
  (1 <= polls (fst (run Scenario.posix_host Scenario.no_sandbox
                        (Scenario.world (Scenario.child Scenario.hello 0 0))
                        (Scenario.request Scenario.echo_hello 5 2048))))%nat
  /\ snd (run Scenario.posix_host Scenario.no_sandbox
              (Scenario.world (Scenario.child Scenario.hello 0 0))
              (Scenario.request Scenario.echo_hello 5 2048))
     = CallerKilled.
Proof.
  pose proof (C10_exit_code_bound_iff_loop_runs
                Scenario.posix_host Scenario.no_sandbox
                (Scenario.world (Scenario.child Scenario.hello 0 0))
                (Scenario.request Scenario.echo_hello 5 2048)
                (Scenario.child Scenario.hello 0 0) eq_refl)
    as (Hbound & _ & Hkilled).
  split.
  - apply Hbound. cbn; lia.
  - apply Hkilled; reflexivity.
Defined.

(** * Beyond the claims: the sampler *)

Lemma sum_Z_app (a b : list Z) : sum_Z (a ++ b) = sum_Z a + sum_Z b.
Proof.
  induction a as [|x a IH]; simpl; [reflexivity|].
  fold (sum_Z (a ++ b)). fold (sum_Z a). rewrite IH. lia.
Qed.

Lemma tree_fold (ps : list ProcStat) (acc : Z * Z) :
  fold_left
    (fun acc process =>
       (fst acc + stat_ticks process, snd acc + vm_peak_kb process))
    ps acc
  = (fst acc + sum_Z (map stat_ticks ps), snd acc + sum_Z (map vm_peak_kb ps)).
Proof.
  revert acc. induction ps as [|q ps IH]; intros [c m]; simpl.
  - f_equal; lia.
  - rewrite IH. simpl. fold (sum_Z (map stat_ticks ps)).
    fold (sum_Z (map vm_peak_kb ps)). f_equal; lia.
Qed.

Lemma sampler_posix (s : Snapshot) :
  get_process_cpu_mem Posix (Some s)
  = (sum_Z (map stat_ticks (all_processes s)),
     sum_Z (map vm_peak_kb (all_processes s))).
Proof.
  cbn [get_process_cpu_mem is_posix negb]. rewrite tree_fold. reflexivity.
Qed.

Lemma sum_Z_map_perm {A : Type} (f : A -> Z) (l l' : list A) :
  Permutation l l' -> sum_Z (map f l) = sum_Z (map f l').
Proof.
  induction 1 as [|x l l' _ IH|x y l|l l' l'' _ IH1 _ IH2]; simpl.
  - reflexivity.
  - fold (sum_Z (map f l)). fold (sum_Z (map f l')). now rewrite IH.
  - fold (sum_Z (map f l)). lia.
  - now rewrite IH1.
Qed.

(** X2: what the sampler returns does not depend on the order in which
    the processes of the tree are listed. *)
Theorem X2_sampler_order_independent (o : OsName) (s s' : Snapshot) :
  rss s = rss s' ->
  Permutation (all_processes s) (all_processes s') ->
  get_process_cpu_mem o (Some s) = get_process_cpu_mem o (Some s').
Proof.
  intros Hrss Hperm. destruct o.
  - rewrite !sampler_posix.
    now rewrite (sum_Z_map_perm stat_ticks _ _ Hperm),
      (sum_Z_map_perm vm_peak_kb _ _ Hperm).
  - cbn. now rewrite Hrss.
  - cbn. now rewrite Hrss.
Qed.

(** A tree of two processes, listed parent first and child first. *)
Lemma X2_sampler_order_independent_witness :
  let idle := {| utime := 1; stime := 2; cutime := 0; cstime := 0;
                 VmPeak := Some (3, mB) |} in
  get_process_cpu_mem Posix
    (Some {| rss := 0; all_processes := [Scenario.busy; idle] |})
  = get_process_cpu_mem Posix
      (Some {| rss := 0; all_processes := [idle; Scenario.busy] |}).
Proof.
  intros idle.
  apply (X2_sampler_order_independent Posix
           {| rss := 0; all_processes := [Scenario.busy; idle] |}
           {| rss := 0; all_processes := [idle; Scenario.busy] |});
    [reflexivity | apply perm_swap].
Defined.

(** * Beyond the claims: the type of [process_cpu_util] *)

(** X3: in every result, [process_cpu_util] is the integer 0 when the
    two readings of the system-wide ticks are equal, the float 0.0 when
    the second is the larger, and the float -0.0 when it is the smaller;
    on a host that is not POSIX both readings are 0, so it is the
    integer. *)
Theorem X3_cpu_util_int_or_float
        (h : Host) (cfg : Config) (w : World) (r : LaunchRequest) (p : Child)
        (res : Dict) :
  Popen w (args r) (popen_kw h cfg r) = PopenOk p ->
  snd (run h cfg w r) = Returned res ->
  let system_cpu_start := get_system_cpu (os_name h) (proc_stat_at_start w) in
  let system_cpu_end := get_system_cpu (os_name h) (proc_stat_at_end w) in
  dict_get "process_cpu_util" res
  = Some (if system_cpu_start =? system_cpu_end then VInt 0
          else if system_cpu_end <? system_cpu_start then VNegZero
               else VFloat 0)
  /\ (is_posix (os_name h) = false ->
      dict_get "process_cpu_util" res = Some (VInt 0)).
Proof.
  intros Hp Hres cstart cend.
  destruct (run_returned_inv h cfg w r p res Hp Hres) as [_ Hasm].
  assert (H : dict_get "process_cpu_util" res
              = Some (if cstart =? cend then VInt 0
                      else if cend <? cstart then VNegZero else VFloat 0)).
  { unfold assemble in Hasm.
    destruct (exit_code (monitor h r p)) as [code|]; [|discriminate Hasm].
    destruct (decode_utf8 Ignore _) as [out|]; [|discriminate Hasm].
    destruct (decode_utf8 Ignore _) as [err|]; [|discriminate Hasm].
    injection Hasm as <-.
    cbn [dict_get String.eqb Ascii.eqb Bool.eqb].
    fold cstart. fold cend.
    destruct (cstart =? cend); cbn [negb]; [reflexivity|].
    unfold py_truediv. cbn [Z.eqb andb].
    destruct (Z.ltb_spec cend cstart) as [Hlt|Hge].
    - replace (cend - cstart <? 0) with true
        by (symmetry; apply Z.ltb_lt; lia).
      reflexivity.
    - replace (cend - cstart <? 0) with false
        by (symmetry; apply Z.ltb_ge; lia).
      cbn [py_mul_pos]. change (inject_Z (Zpos 100)) with 100%Q.
      now rewrite (py_round2_zero _ (zero_ticks_scaled _ _ _)). }
  split; [exact H|].
  intros Hos. rewrite H. subst cstart cend. unfold get_system_cpu.
  rewrite Hos. reflexivity.
Qed.

(** A world in which /proc/stat can be read at the start of the call and
    no longer at its end: the second reading is 0, below the first. *)
Lemma X3_cpu_util_int_or_float_witness :
  let w := {| Popen := fun _ _ => PopenOk (Scenario.child Scenario.hello 0 0);
              caller_pgid := 777;
              proc_stat_at_start := Some [5000; 0; 3000; 90000];
              proc_stat_at_end := None;
              time_at_start := 0;
              time_at_end := 3 # 10 |} in
  exists res,
    snd (run Scenario.posix_host Scenario.sandbox w
             (Scenario.request Scenario.echo_hello 5 2048))
    = Returned res
    /\ dict_get "process_cpu_util" res = Some VNegZero.
Proof.
  intros w.
  eassert (E : snd (run Scenario.posix_host Scenario.sandbox w
                        (Scenario.request Scenario.echo_hello 5 2048))
               = Returned _) by (vm_compute; reflexivity).
  eexists. split; [exact E|].
  exact (proj1 (X3_cpu_util_int_or_float
                  Scenario.posix_host Scenario.sandbox w
                  (Scenario.request Scenario.echo_hello 5 2048)
                  (Scenario.child Scenario.hello 0 0) _ eq_refl E)).
Defined.

(** * Beyond the claims: one launch, one kill *)

Lemma tick_observations (nb : bool) (o : OsName) (m : Z) (p : Child)
      (i : nat) (s : LoopState) :
  forallb is_observation (actions s) = true ->
  forallb is_observation (actions (tick nb o m p i s)) = true.
Proof.
  intros H. rewrite tick_actions, forallb_app, H. reflexivity.
Qed.

Lemma poll_loop_observations (nb : bool) (o : OsName) (m : Z) (p : Child)
      (n : nat) :
  forall (i : nat) (s : LoopState),
    forallb is_observation (actions s) = true ->
    forallb is_observation (actions (poll_loop nb o m p n i s)) = true.
Proof.
  induction n as [|n IH]; intros i s Hs; [exact Hs|].
  cbn [poll_loop]. pose proof (tick_observations nb o m p i s Hs) as Ht.
  destruct (exit_code (tick nb o m p i s)) as [[c|]|];
    [exact Ht | |];
    apply IH; cbn [log actions]; now rewrite forallb_app, Ht.
Qed.

(** Between the launch and the kill there are observations only. *)
Lemma launch_then_observe_then_kill
      (h : Host) (cfg : Config) (w : World) (r : LaunchRequest) (p : Child) :
  Popen w (args r) (popen_kw h cfg r) = PopenOk p ->
  exists between,
    fst (run h cfg w r)
    = APopen (args r) (popen_kw h cfg r)
        :: between
        ++ [reap (process_group_id h w (popen_kw h cfg r) p) p]
    /\ forallb is_observation between = true.
Proof.
  intros Hp. exists (actions (monitor h r p)).
  split; [now rewrite (run_launched h cfg w r p Hp)|].
  rewrite monitor_actions, forallb_app. apply andb_true_intro. split.
  - now apply poll_loop_observations.
  - unfold joins. now destruct (is_nt (os_name h)).
Qed.

(** X4: a call that gets past the launch launches once, first of all, and
    kills once, last of all, whether the child has exited, has outlived
    the budget, or the loop never ran; nothing in between starts or
    signals a process.  A call whose launch raises does nothing else. *)
Theorem X4_one_launch_one_kill
        (h : Host) (cfg : Config) (w : World) (r : LaunchRequest) :
  (forall p,
      Popen w (args r) (popen_kw h cfg r) = PopenOk p ->
      exists between,
        fst (run h cfg w r)
        = APopen (args r) (popen_kw h cfg r)
            :: between
            ++ [reap (process_group_id h w (popen_kw h cfg r) p) p]
        /\ forallb is_observation between = true)
  /\ (forall e,
         Popen w (args r) (popen_kw h cfg r) = PopenRaises e ->
         fst (run h cfg w r) = [APopen (args r) (popen_kw h cfg r)]).
Proof.
  split.
  - intros p Hp. now apply launch_then_observe_then_kill.
  - intros e He. now rewrite (run_launch_failed h cfg w r e He).
Qed.

(** A child killed without having been polled, and a launch that fails. *)
Lemma X4_one_launch_one_kill_witness :
  (exists between,
      fst (run Scenario.posix_host Scenario.sandbox
               (Scenario.world (Scenario.child Scenario.hello 0 0))
               (Scenario.request Scenario.echo_hello 0 2048))
      = APopen Scenario.echo_hello
               (popen_kw Scenario.posix_host Scenario.sandbox
                         (Scenario.request Scenario.echo_hello 0 2048))
          :: between ++ [AKillpg 4242]
      /\ forallb is_observation between = true)
  /\ List.length
       (fst (run Scenario.posix_host Scenario.sandbox Scenario.no_such_file
                 (Scenario.request Scenario.echo_hello 5 2048))) = 1%nat.
Proof.
  split.
  - exact (proj1 (X4_one_launch_one_kill
                    Scenario.posix_host Scenario.sandbox
                    (Scenario.world (Scenario.child Scenario.hello 0 0))
                    (Scenario.request Scenario.echo_hello 0 2048))
                 (Scenario.child Scenario.hello 0 0) eq_refl).
  - rewrite (proj2 (X4_one_launch_one_kill
                      Scenario.posix_host Scenario.sandbox
                      Scenario.no_such_file
                      (Scenario.request Scenario.echo_hello 5 2048))
                   FileNotFoundError eq_refl).
    reflexivity.
Defined.

(** * Beyond the claims: what is captured of what was written *)

Lemma polls_tick (nb : bool) (o : OsName) (m : Z) (p : Child) (i : nat)
      (s : LoopState) :
  polls (actions (tick nb o m p i s)) = S (polls (actions s)).
Proof. rewrite tick_actions, polls_app. cbn. lia. Qed.

Lemma polls_log_sleep (s : LoopState) :
  polls (actions (log [ASleep] s)) = polls (actions s).
Proof. cbn [log actions]. rewrite polls_app. cbn. lia. Qed.

(** One read and its acceptance keep the books of a stream: what was
    written is what is saved followed by a remainder, and as long as the
    cap is not reached the remainder is what is left in the pipe. *)
Lemma accept_read_books (m : Z) (c : Capture) (pipe arrivals before rest : bytes) :
  before = List.concat (saved_bytes c) ++ rest ->
  (bytes_read c < m -> rest = pipe) ->
  exists rest',
    before ++ arrivals
    = List.concat
        (saved_bytes
           (accept m (fst (read_nonblocking MAX_BYTES_PER_READ
                                            (pipe ++ arrivals))) c))
      ++ rest'
    /\ (bytes_read
          (accept m (fst (read_nonblocking MAX_BYTES_PER_READ
                                           (pipe ++ arrivals))) c) < m ->
        rest' = snd (read_nonblocking MAX_BYTES_PER_READ (pipe ++ arrivals))).
Proof.
  intros Hbefore Hrest.
  destruct (Z.ltb_spec (bytes_read c) m) as [Hlt|Hge].
  - specialize (Hrest Hlt). subst rest.
    pose proof (read_nonblocking_split MAX_BYTES_PER_READ (pipe ++ arrivals))
      as Hsplit.
    unfold accept.
    destruct (truthy (fst (read_nonblocking MAX_BYTES_PER_READ
                                            (pipe ++ arrivals)))) eqn:Htruthy.
    + replace (bytes_read c <? m) with true by (symmetry; now apply Z.ltb_lt).
      cbn [andb saved_bytes bytes_read].
      exists (snd (read_nonblocking MAX_BYTES_PER_READ (pipe ++ arrivals))).
      split; [|reflexivity].
      rewrite concat_snoc, Hbefore, <- !app_assoc. now rewrite Hsplit.
    + cbn [andb]. exists (pipe ++ arrivals). split.
      * rewrite Hbefore. now rewrite <- app_assoc.
      * intros _. destruct (pipe ++ arrivals) as [|b l]; [reflexivity|].
        cbn in Htruthy. discriminate Htruthy.
  - rewrite accept_at_cap by exact Hge.
    exists (rest ++ arrivals). split.
    + rewrite Hbefore. now rewrite <- app_assoc.
    + intros Hlt. lia.
Qed.

Lemma tick_books (o : OsName) (m : Z) (p : Child) (s : LoopState) :
  stdout_books m p s /\ stderr_books m p s ->
  stdout_books m p (tick true o m p (polls (actions s)) s)
  /\ stderr_books m p (tick true o m p (polls (actions s)) s).
Proof.
  intros [(ro & Ho & Hro) (re & He & Hre)].
  unfold stdout_books, stderr_books.
  rewrite polls_tick, tick_stdout_capture, tick_stderr_capture.
  cbn [written_before tick do_poll drain sample stdout_pipe stderr_pipe snd].
  split.
  - apply (accept_read_books m (stdout_capture s) (stdout_pipe s)
                             (stdout_written p (polls (actions s))) _ ro Ho Hro).
  - apply (accept_read_books m (stderr_capture s) (stderr_pipe s)
                             (stderr_written p (polls (actions s))) _ re He Hre).
Qed.

Lemma log_sleep_books (m : Z) (p : Child) (s : LoopState) :
  stdout_books m p s /\ stderr_books m p s ->
  stdout_books m p (log [ASleep] s) /\ stderr_books m p (log [ASleep] s).
Proof.
  unfold stdout_books, stderr_books. rewrite polls_log_sleep.
  cbn [log stdout_capture stderr_capture stdout_pipe stderr_pipe]. trivial.
Qed.

Lemma poll_loop_books (o : OsName) (m : Z) (p : Child) (n : nat) :
  forall (i : nat) (s : LoopState),
    i = polls (actions s) ->
    stdout_books m p s /\ stderr_books m p s ->
    stdout_books m p (poll_loop true o m p n i s)
    /\ stderr_books m p (poll_loop true o m p n i s).
Proof.
  induction n as [|n IH]; intros i s Hi Hs; [exact Hs|].
  subst i. cbn [poll_loop]. pose proof (tick_books o m p s Hs) as Ht.
  destruct (exit_code (tick true o m p (polls (actions s)) s)) as [[c|]|];
    [exact Ht | |];
    (apply IH;
     [now rewrite polls_log_sleep, polls_tick | now apply log_sleep_books]).
Qed.

Lemma read_stream_books (m : Z) (steps : nat) :
  forall (stream : bytes) (c : Capture),
    exists rest,
      List.concat (saved_bytes c) ++ stream
      = List.concat (saved_bytes (read_stream steps m stream c)) ++ rest.
Proof.
  induction steps as [|steps IH]; intros stream c; [now exists stream|].
  cbn [read_stream].
  destruct (bytes_read c <? m); [|now exists stream].
  destruct (firstn MAX_BYTES_PER_READ stream) as [|b chunk] eqn:Echunk;
    [now exists stream|].
  destruct (IH (skipn MAX_BYTES_PER_READ stream)
               {| saved_bytes := saved_bytes c ++ [b :: chunk];
                  bytes_read := bytes_read c + len (b :: chunk) |})
    as [rest Hrest].
  exists rest. rewrite <- Hrest. cbn [saved_bytes].
  rewrite concat_snoc, <- app_assoc, <- Echunk. now rewrite firstn_skipn.
Qed.

(** X5: what is captured of a stream is an initial segment of what the
    child wrote to it: nothing is reordered, repeated or made up.  In the
    non-blocking loop it is an initial segment of what was written before
    the last tick made; in a reader thread, of the stream. *)
Theorem X5_captured_is_prefix_of_written
        (h : Host) (r : LaunchRequest) (p : Child) :
  let s := monitor h r p in
  (is_nt (os_name h) = false ->
   is_prefix (List.concat (saved_bytes (stdout_capture s)))
             (written_before (stdout_written p) (polls (actions s)))
   /\ is_prefix (List.concat (saved_bytes (stderr_capture s)))
                (written_before (stderr_written p) (polls (actions s))))
  /\ (is_nt (os_name h) = true ->
      is_prefix (List.concat (saved_bytes (stdout_capture s))) (stdout_stream p)
      /\ is_prefix (List.concat (saved_bytes (stderr_capture s)))
                   (stderr_stream p)).
Proof.
  intros s. subst s. unfold monitor. split; intros Hnt; rewrite Hnt.
  - destruct (poll_loop_books (os_name h) (max_output_size r) p
                              (max_iterations r) 0 initial_state eq_refl)
      as [(ro & Ho & _) (re & He & _)].
    + split; exists []; split; reflexivity || (intros _; reflexivity).
    + split; [now exists ro | now exists re].
  - cbn [stdout_capture stderr_capture]. split.
    + destruct (read_stream_books (max_output_size r) (stdout_reader_steps p)
                                  (stdout_stream p) empty_capture) as [rest H].
      now exists rest.
    + destruct (read_stream_books (max_output_size r) (stderr_reader_steps p)
                                  (stderr_stream p) empty_capture) as [rest H].
      now exists rest.
Qed.

(** The child that prints 5000 bytes, under a cap of 100. *)
Lemma X5_captured_is_prefix_of_written_witness :
  let r := Scenario.request Scenario.echo_hello 5 100 in
  let p := Scenario.child Scenario.flood 2 0 in
  let s := monitor Scenario.posix_host r p in
  is_prefix (List.concat (saved_bytes (stdout_capture s)))
            (written_before (stdout_written p) (polls (actions s))).
Proof.
  intros r p s.
  exact (proj1 (proj1 (X5_captured_is_prefix_of_written
                         Scenario.posix_host r p) eq_refl)).
Defined.

(** X6: in the non-blocking loop, a stream whose counter is below the cap
    after the loop has lost nothing: what was captured, followed by what
    is still in the pipe, is what the child wrote before the last tick
    made. *)
Theorem X6_nothing_lost_below_cap
        (h : Host) (r : LaunchRequest) (p : Child) :
  is_nt (os_name h) = false ->
  let s := monitor h r p in
  (bytes_read (stdout_capture s) < max_output_size r ->
   List.concat (saved_bytes (stdout_capture s)) ++ stdout_pipe s
   = written_before (stdout_written p) (polls (actions s)))
  /\ (bytes_read (stderr_capture s) < max_output_size r ->
      List.concat (saved_bytes (stderr_capture s)) ++ stderr_pipe s
      = written_before (stderr_written p) (polls (actions s))).
Proof.
  intros Hnt s. subst s. unfold monitor. rewrite Hnt.
  destruct (poll_loop_books (os_name h) (max_output_size r) p
                            (max_iterations r) 0 initial_state eq_refl)
    as [(ro & Ho & Hro) (re & He & Hre)].
  - split; exists []; split; reflexivity || (intros _; reflexivity).
  - split; intros Hlt.
    + rewrite Ho. now rewrite (Hro Hlt).
    + rewrite He. now rewrite (Hre Hlt).
Qed.

(** The child that prints 5000 bytes and is found exited at the third
    tick, under a cap of 4000: three reads are captured, 1928 bytes are
    left in the pipe. *)
Lemma X6_nothing_lost_below_cap_witness :
  let r := Scenario.request Scenario.echo_hello 5 4000 in
  let p := Scenario.child Scenario.flood 2 0 in
  let s := monitor Scenario.posix_host r p in
  bytes_read (stdout_capture s) = 3072
  /\ List.concat (saved_bytes (stdout_capture s)) ++ stdout_pipe s
     = written_before (stdout_written p) (polls (actions s)).
Proof.
  intros r p s.
  assert (Hread : bytes_read (stdout_capture s) = 3072)
    by (vm_compute; reflexivity).
  split; [exact Hread|].
  apply (proj1 (X6_nothing_lost_below_cap Scenario.posix_host r p eq_refl)).
  fold s. rewrite Hread. cbn. lia.
Defined.

(** * Beyond the claims: one read per tick *)

Lemma accept_grows (m : Z) (this_read : option bytes) (c : Capture) :
  len (chunk_of this_read) <= Z.of_nat MAX_BYTES_PER_READ ->
  bytes_read (accept m this_read c)
  <= bytes_read c + Z.of_nat MAX_BYTES_PER_READ.
Proof.
  intros Hlen. unfold accept.
  destruct (truthy this_read && (bytes_read c <? m));
    cbn [bytes_read]; lia.
Qed.

Lemma poll_loop_read_per_tick (nb : bool) (o : OsName) (m : Z) (p : Child)
      (n : nat) :
  forall (i : nat) (s : LoopState),
    (bytes_read (stdout_capture s)
     <= Z.of_nat MAX_BYTES_PER_READ * Z.of_nat (polls (actions s))
     /\ bytes_read (stderr_capture s)
        <= Z.of_nat MAX_BYTES_PER_READ * Z.of_nat (polls (actions s))) ->
    bytes_read (stdout_capture (poll_loop nb o m p n i s))
    <= Z.of_nat MAX_BYTES_PER_READ
       * Z.of_nat (polls (actions (poll_loop nb o m p n i s)))
    /\ bytes_read (stderr_capture (poll_loop nb o m p n i s))
       <= Z.of_nat MAX_BYTES_PER_READ
          * Z.of_nat (polls (actions (poll_loop nb o m p n i s))).
Proof.
  induction n as [|n IH]; intros i s Hs; [exact Hs|].
  assert (Ht : bytes_read (stdout_capture (tick nb o m p i s))
               <= Z.of_nat MAX_BYTES_PER_READ
                  * Z.of_nat (polls (actions (tick nb o m p i s)))
               /\ bytes_read (stderr_capture (tick nb o m p i s))
                  <= Z.of_nat MAX_BYTES_PER_READ
                     * Z.of_nat (polls (actions (tick nb o m p i s)))).
  { destruct Hs as [Ho He].
    rewrite polls_tick, tick_stdout_capture, tick_stderr_capture.
    destruct nb.
    - pose proof (accept_grows m _ (stdout_capture s)
                    (read_nonblocking_len MAX_BYTES_PER_READ
                       (stdout_pipe s ++ stdout_written p i))).
      pose proof (accept_grows m _ (stderr_capture s)
                    (read_nonblocking_len MAX_BYTES_PER_READ
                       (stderr_pipe s ++ stderr_written p i))).
      lia.
    - lia. }
  cbn [poll_loop].
  destruct (exit_code (tick nb o m p i s)) as [[c|]|];
    [exact Ht | |];
    (apply IH; rewrite polls_log_sleep;
     cbn [log stdout_capture stderr_capture]; exact Ht).
Qed.

(** X7: the non-blocking loop takes at most one read of 1024 bytes from
    each stream per tick, whatever the cap: after the loop, each counter
    is at most 1024 times the number of polls made.  So of a child that
    is found exited at the first poll, at most 1024 bytes per stream are
    captured, however much it wrote and however large the cap. *)
Theorem X7_one_read_per_tick
        (h : Host) (r : LaunchRequest) (p : Child) (c : Z) :
  is_nt (os_name h) = false ->
  let s := monitor h r p in
  (len (List.concat (saved_bytes (stdout_capture s)))
   <= 1024 * Z.of_nat (polls (actions s))
   /\ len (List.concat (saved_bytes (stderr_capture s)))
      <= 1024 * Z.of_nat (polls (actions s)))
  /\ (poll p 0 = Some c ->
      len (List.concat (saved_bytes (stdout_capture s))) <= 1024
      /\ len (List.concat (saved_bytes (stderr_capture s))) <= 1024).
Proof.
  intros Hnt s.
  destruct (monitor_capture_inv h r p) as [[Hout _] [Herr _]].
  fold s in Hout, Herr. rewrite <- Hout, <- Herr.
  assert (Hs : s = poll_loop true (os_name h) (max_output_size r) p
                             (max_iterations r) 0 initial_state)
    by (subst s; unfold monitor; now rewrite Hnt).
  assert (Hbound : bytes_read (stdout_capture s)
                   <= 1024 * Z.of_nat (polls (actions s))
                   /\ bytes_read (stderr_capture s)
                      <= 1024 * Z.of_nat (polls (actions s))).
  { rewrite Hs. apply poll_loop_read_per_tick. cbn. lia. }
  split; [exact Hbound|].
  intros Hexit.
  assert (Hpolls : (polls (actions s) <= 1)%nat).
  { rewrite Hs. destruct (max_iterations r) as [|n]; [cbn; lia|].
    cbn [poll_loop]. rewrite tick_exit_code, Hexit, polls_tick. cbn. lia. }
  lia.
Qed.

(** The child that prints 5000 bytes and has exited by the first poll,
    under a cap of 4000. *)
Lemma X7_one_read_per_tick_witness :
  let r := Scenario.request Scenario.echo_hello 5 4000 in
  let p := Scenario.child Scenario.flood 0 0 in
  len (List.concat
         (saved_bytes (stdout_capture (monitor Scenario.posix_host r p))))
  <= 1024.
Proof.
  intros r p.
  exact (proj1 (proj2 (X7_one_read_per_tick Scenario.posix_host r p 0 eq_refl)
                      eq_refl)).
Defined.

(** * Beyond the claims: a reader thread that gets to finish *)

Lemma read_stream_complete (m : Z) (steps : nat) :
  forall (stream : bytes) (c : Capture),
    (List.length stream < steps)%nat ->
    bytes_read c + len stream <= m ->
    List.concat (saved_bytes (read_stream steps m stream c))
    = List.concat (saved_bytes c) ++ stream.
Proof.
  induction steps as [|steps IH]; intros stream c Hsteps Hroom; [lia|].
  cbn [read_stream].
  destruct stream as [|b stream].
  - destruct (bytes_read c <? m); cbn [firstn MAX_BYTES_PER_READ];
      now rewrite app_nil_r.
  - assert (Hlt : bytes_read c < m).
    { unfold len in Hroom. cbn [List.length] in Hroom. lia. }
    replace (bytes_read c <? m) with true by (symmetry; now apply Z.ltb_lt).
    destruct (firstn MAX_BYTES_PER_READ (b :: stream)) as [|b' chunk] eqn:Echunk;
      [cbn in Echunk; discriminate Echunk|].
    pose proof (firstn_skipn MAX_BYTES_PER_READ (b :: stream)) as Hsplit.
    rewrite Echunk in Hsplit.
    assert (Hlen : len (b :: stream)
                   = len (b' :: chunk)
                     + len (skipn MAX_BYTES_PER_READ (b :: stream)))
      by (rewrite <- len_app; now rewrite Hsplit).
    rewrite IH.
    + cbn [saved_bytes]. rewrite concat_snoc, <- app_assoc. now rewrite Hsplit.
    + unfold len in Hlen. cbn [List.length] in Hlen, Hsteps |- *. lia.
    + cbn [bytes_read]. lia.
Qed.

(** X8: where the streams are read by threads, a stream that is no longer
    than the cap is captured whole, provided its reader gets to make more
    iterations than the stream has bytes before the result is assembled. *)
Theorem X8_reader_thread_captures_whole_stream
        (h : Host) (r : LaunchRequest) (p : Child) :
  is_nt (os_name h) = true ->
  (len (stdout_stream p) <= max_output_size r ->
   (List.length (stdout_stream p) < stdout_reader_steps p)%nat ->
   List.concat (saved_bytes (stdout_capture (monitor h r p)))
   = stdout_stream p)
  /\ (len (stderr_stream p) <= max_output_size r ->
      (List.length (stderr_stream p) < stderr_reader_steps p)%nat ->
      List.concat (saved_bytes (stderr_capture (monitor h r p)))
      = stderr_stream p).
Proof.
  intros Hnt. unfold monitor. rewrite Hnt.
  cbn [stdout_capture stderr_capture].
  split; intros Hroom Hsteps;
    rewrite read_stream_complete; cbn [empty_capture saved_bytes bytes_read];
    trivial; lia.
Qed.

(** The child that prints [hello] on the host with reader threads, each
    of which gets eight iterations. *)
Lemma X8_reader_thread_captures_whole_stream_witness :
  List.concat
    (saved_bytes
       (stdout_capture
          (monitor Scenario.nt_host
                   (Scenario.request Scenario.echo_hello 5 2048)
                   (Scenario.child Scenario.hello 0 0))))
  = Scenario.hello.
Proof.
  apply (proj1 (X8_reader_thread_captures_whole_stream
                  Scenario.nt_host
                  (Scenario.request Scenario.echo_hello 5 2048)
                  (Scenario.child Scenario.hello 0 0) eq_refl));
    cbn; lia.
Defined.

(** * Beyond the claims: what does not depend on what *)

(** Looks up [key] in the two outcomes with the same answer. *)
Ltac same_field key :=
  cbn [result_field dict_get];
  repeat match goal with
         | |- context [String.eqb key ?k] =>
           destruct (String.eqb_spec key k)
         end;
  try reflexivity; try congruence.

Lemma tick_without_samples (nb : bool) (o : OsName) (m : Z) (p : Child)
      (f : nat -> option Snapshot) (i : nat) (s s' : LoopState) :
  without_samples s' = without_samples s ->
  without_samples (tick nb o m (with_observe f p) i s')
  = without_samples (tick nb o m p i s).
Proof.
  unfold without_samples. intros H. injection H as Ho He Hpo Hpe Hc.
  unfold tick, do_poll. destruct nb;
    cbn [drain sample with_observe stdout_capture stderr_capture stdout_pipe
         stderr_pipe exit_code poll stdout_written stderr_written];
    now rewrite ?Ho, ?He, ?Hpo, ?Hpe.
Qed.

Lemma poll_loop_without_samples (nb : bool) (o : OsName) (m : Z) (p : Child)
      (f : nat -> option Snapshot) (n : nat) :
  forall (i : nat) (s s' : LoopState),
    without_samples s' = without_samples s ->
    without_samples (poll_loop nb o m (with_observe f p) n i s')
    = without_samples (poll_loop nb o m p n i s).
Proof.
  induction n as [|n IH]; intros i s s' H; [exact H|].
  cbn [poll_loop].
  pose proof (tick_without_samples nb o m p f i s s' H) as Ht.
  assert (Hc : exit_code (tick nb o m (with_observe f p) i s')
               = exit_code (tick nb o m p i s))
    by (unfold without_samples in Ht; congruence).
  rewrite Hc.
  destruct (exit_code (tick nb o m p i s)) as [[c|]|];
    [exact Ht | |]; apply IH; exact Ht.
Qed.

Lemma monitor_without_samples (h : Host) (r : LaunchRequest) (p : Child)
      (f : nat -> option Snapshot) :
  without_samples (monitor h r (with_observe f p))
  = without_samples (monitor h r p).
Proof.
  unfold monitor. destruct (is_nt (os_name h)).
  - pose proof (poll_loop_without_samples
                  false (os_name h) (max_output_size r) p f (max_iterations r)
                  0 initial_state initial_state eq_refl) as H.
    unfold without_samples in *.
    cbn [stdout_capture stderr_capture stdout_pipe stderr_pipe exit_code
         with_observe stdout_stream stderr_stream stdout_reader_steps
         stderr_reader_steps].
    injection H as _ _ Hpo Hpe Hc. now rewrite Hpo, Hpe, Hc.
  - now apply poll_loop_without_samples.
Qed.

(** X9: what the sampler finds has no bearing on anything in the result
    but [process_peak_memory]: put another process tree, or a sampler that
    fails at every tick, in place of the one observed, and every other
    field of the result is the same, and the same exception is raised if
    any. *)
Theorem X9_result_independent_of_samples
        (h : Host) (cfg : Config) (w : World) (r : LaunchRequest)
        (f : nat -> option Snapshot) (key : string) :
  key <> "process_peak_memory"%string ->
  result_field key (snd (run h cfg (map_child (with_observe f) w) r))
  = result_field key (snd (run h cfg w r))
  /\ (forall e,
         snd (run h cfg (map_child (with_observe f) w) r) = Raised e
         <-> snd (run h cfg w r) = Raised e).
Proof.
  intros Hkey. unfold run.
  cbn [map_child Popen caller_pgid proc_stat_at_start].
  destruct (Popen w (args r) (popen_kw h cfg r)) as [e|p]; cbn [snd];
    [split; [reflexivity | tauto]|].
  change (kills_caller (map_child (with_observe f) w)
            (reap (process_group_id h (map_child (with_observe f) w)
                                    (popen_kw h cfg r) (with_observe f p))
                  (with_observe f p)))
    with (kills_caller w
            (reap (process_group_id h w (popen_kw h cfg r) p) p)).
  destruct (kills_caller w _); [split; [reflexivity | tauto]|].
  pose proof (monitor_without_samples h r p f) as H.
  unfold without_samples in H. injection H as Ho He _ _ Hc.
  unfold assemble. cbn [map_child proc_stat_at_end time_at_end time_at_start].
  rewrite Ho, He, Hc.
  destruct (exit_code (monitor h r p)) as [code|]; [|split; [reflexivity | tauto]].
  destruct (decode_utf8 Ignore _) as [out|]; [|split; [reflexivity | tauto]].
  destruct (decode_utf8 Ignore _) as [err|]; [|split; [reflexivity | tauto]].
  split.
  - same_field key.
  - intros e. split; discriminate.
Qed.

(** The timeout flag of a child whose tree cannot be read at any tick. *)
Lemma X9_result_independent_of_samples_witness :
  result_field "timeout"
    (snd (run Scenario.posix_host Scenario.sandbox
              (map_child (with_observe (fun _ => None))
                         (Scenario.world (Scenario.child Scenario.hello 1 2)))
              (Scenario.request Scenario.echo_hello 5 2048)))
  = result_field "timeout"
      (snd (run Scenario.posix_host Scenario.sandbox
                (Scenario.world (Scenario.child Scenario.hello 1 2))
                (Scenario.request Scenario.echo_hello 5 2048))).
Proof.
  apply (X9_result_independent_of_samples
           Scenario.posix_host Scenario.sandbox
           (Scenario.world (Scenario.child Scenario.hello 1 2))
           (Scenario.request Scenario.echo_hello 5 2048)
           (fun _ => None) "timeout").
  discriminate.
Defined.






(** * Beyond the claims: the decoded text *)

Lemma emit_inv (c : Z) (rest : option pystr) (s : pystr) :
  emit c rest = Some s -> exists s', rest = Some s' /\ s = c :: s'.
Proof.
  destruct rest as [s'|]; cbn; [|discriminate].
  intros H. injection H as <-. now exists s'.
Qed.

Lemma on_error_inv (m : ErrorsMode) (rest : option pystr) (s : pystr) :
  on_error m rest = Some s ->
  exists s', rest = Some s' /\ (s = s' \/ s = REPLACEMENT_CHARACTER :: s').
Proof.
  destruct m; cbn [on_error]; [discriminate | |].
  - intros ->. exists s. auto.
  - intros H. apply emit_inv in H. destruct H as (s' & -> & ->).
    exists s'. auto.
Qed.

(** Splits the equation [H : decode_utf8 m (b :: bs) = Some s] along the
    branches of the decoder, down to the equation for the rest. *)
Ltac decoder_branches H :=
  cbn [decode_utf8] in H; cbv zeta in H;
  repeat match type of H with
         | context [if ?c then _ else _] =>
           let E := fresh "E" in destruct c eqn:E
         | context [match ?l with [] => _ | _ :: _ => _ end] =>
           is_var l; destruct l
         end;
  first [ apply emit_inv in H; destruct H as (? & H & ->)
        | apply on_error_inv in H; destruct H as (? & H & [-> | ->]) ].

Lemma decode_utf8_length_bounded (m : ErrorsMode) (n : nat) :
  forall (bs : bytes) (s : pystr),
    (List.length bs <= n)%nat ->
    decode_utf8 m bs = Some s ->
    (List.length s <= List.length bs)%nat.
Proof.
  induction n as [|n IH]; intros bs s Hlen H.
  - destruct bs; [|simpl in Hlen; lia].
    cbn in H. injection H as <-. simpl. lia.
  - destruct bs as [|b0 r0]; [cbn in H; injection H as <-; simpl; lia|].
    decoder_branches H;
      cbn [List.length] in *;
      first [ injection H as <-; cbn [List.length]; lia
            | apply IH in H; cbn [List.length] in *; lia ].
Qed.

Lemma decode_utf8_length (m : ErrorsMode) (bs : bytes) (s : pystr) :
  decode_utf8 m bs = Some s -> (List.length s <= List.length bs)%nat.
Proof. now apply (decode_utf8_length_bounded m (List.length bs)). Qed.

(** X11: decoding gives at most one character per byte, so for a cap that
    is not negative the texts [stdout] and [stderr] of every result have
    at most [max_output_size + 1024] characters each. *)
Theorem X11_text_within_one_read_of_cap
        (h : Host) (cfg : Config) (w : World) (r : LaunchRequest) (p : Child)
        (res : Dict) :
  Popen w (args r) (popen_kw h cfg r) = PopenOk p ->
  snd (run h cfg w r) = Returned res ->
  0 <= max_output_size r ->
  exists out err,
    dict_get "stdout" res = Some (VStr out)
    /\ dict_get "stderr" res = Some (VStr err)
    /\ Z.of_nat (List.length out) <= max_output_size r + 1024
    /\ Z.of_nat (List.length err) <= max_output_size r + 1024.
Proof.
  intros Hp Hres Hm.
  destruct (run_returned_fields h cfg w r p res Hp Hres)
    as (code & out & err & util & _ & Hout & Herr & ->).
  exists out, err.
  destruct (monitor_capture_inv h r p) as [Hco Hce].
  destruct (capture_inv_within_cap _ _ Hm Hco) as [_ Hbo].
  destruct (capture_inv_within_cap _ _ Hm Hce) as [_ Hbe].
  apply decode_utf8_length in Hout. apply decode_utf8_length in Herr.
  unfold len in Hbo, Hbe.
  change (Z.of_nat MAX_BYTES_PER_READ) with 1024 in Hbo, Hbe.
  repeat split; lia.
Qed.

(** The child that prints 5000 bytes, under a cap of 100. *)
Lemma X11_text_within_one_read_of_cap_witness :
  exists res out,
    snd (run Scenario.posix_host Scenario.sandbox
             (Scenario.world (Scenario.child Scenario.flood 2 0))
             (Scenario.request Scenario.echo_hello 5 100))
    = Returned res
    /\ dict_get "stdout" res = Some (VStr out)
    /\ Z.of_nat (List.length out) <= 100 + 1024.
Proof.
  eassert (E : snd (run Scenario.posix_host Scenario.sandbox
                        (Scenario.world (Scenario.child Scenario.flood 2 0))
                        (Scenario.request Scenario.echo_hello 5 100))
               = Returned _) by (vm_compute; reflexivity).
  destruct (X11_text_within_one_read_of_cap
              Scenario.posix_host Scenario.sandbox
              (Scenario.world (Scenario.child Scenario.flood 2 0))
              (Scenario.request Scenario.echo_hello 5 100)
              (Scenario.child Scenario.flood 2 0) _ eq_refl E
              ltac:(cbn; lia))
    as (out & err & Hout & _ & Hlen & _).
  eexists. exists out. split; [exact E|]. now split.
Defined.

Lemma low6_cont (b : byte) :
  0x80 <= byte_val b <= 0xBF -> low6 b = byte_val b - 0x80.
Proof.
  intros H.
  assert (Hb : in_range 0x80 0xBF b = true) by (unfold in_range; lia).
  clear H. revert Hb.
  destruct b; intros Hb; vm_compute in Hb; try discriminate Hb;
    vm_compute; reflexivity.
Qed.

Lemma lead2_bits (b : byte) :
  0xC2 <= byte_val b <= 0xDF -> Z.land (byte_val b) 0x1F = byte_val b - 0xC0.
Proof.
  intros H.
  assert (Hb : in_range 0xC2 0xDF b = true) by (unfold in_range; lia).
  clear H. revert Hb.
  destruct b; intros Hb; vm_compute in Hb; try discriminate Hb;
    vm_compute; reflexivity.
Qed.

Lemma lead3_bits (b : byte) :
  0xE0 <= byte_val b <= 0xEF -> Z.land (byte_val b) 0x0F = byte_val b - 0xE0.
Proof.
  intros H.
  assert (Hb : in_range 0xE0 0xEF b = true) by (unfold in_range; lia).
  clear H. revert Hb.
  destruct b; intros Hb; vm_compute in Hb; try discriminate Hb;
    vm_compute; reflexivity.
Qed.

Lemma lead4_bits (b : byte) :
  0xF0 <= byte_val b <= 0xF4 -> Z.land (byte_val b) 0x07 = byte_val b - 0xF0.
Proof.
  intros H.
  assert (Hb : in_range 0xF0 0xF4 b = true) by (unfold in_range; lia).
  clear H. revert Hb.
  destruct b; intros Hb; vm_compute in Hb; try discriminate Hb;
    vm_compute; reflexivity.
Qed.

Lemma replacement_is_scalar : is_scalar_value REPLACEMENT_CHARACTER.
Proof. unfold is_scalar_value, REPLACEMENT_CHARACTER. lia. Qed.

(** Proves that the code point put together in a branch of the decoder is
    a scalar value, from the tests passed on the way to that branch. *)
Ltac scalar_from_tests :=
  unfold second_ok3, second_ok4, is_cont, in_range in *;
  repeat match goal with
         | H : (if ?c then _ else _) = _ |- _ => destruct c eqn:?
         end;
  repeat match goal with
         | |- context [low6 ?b] => rewrite (low6_cont b) by lia
         end;
  rewrite ?lead2_bits, ?lead3_bits, ?lead4_bits by lia;
  rewrite ?Z.shiftl_mul_pow2 by lia;
  change (2 ^ 6) with 64; change (2 ^ 12) with 4096;
  change (2 ^ 18) with 262144;
  unfold is_scalar_value, byte_val in *; lia.

Lemma decode_utf8_scalar_bounded (m : ErrorsMode) (n : nat) :
  forall (bs : bytes) (s : pystr),
    (List.length bs <= n)%nat ->
    decode_utf8 m bs = Some s ->
    Forall is_scalar_value s.
Proof.
  induction n as [|n IH]; intros bs s Hlen H.
  - destruct bs; [|simpl in Hlen; lia].
    cbn in H. injection H as <-. constructor.
  - destruct bs as [|b0 r0]; [cbn in H; injection H as <-; constructor|].
    decoder_branches H;
      cbn [List.length] in Hlen;
      repeat match goal with
             | |- Forall _ (REPLACEMENT_CHARACTER :: _) =>
               constructor; [exact replacement_is_scalar|]
             | |- Forall _ (_ :: _) =>
               constructor; [scalar_from_tests|]
             end;
      first [ injection H as <-; constructor
            | apply IH in H; [exact H | cbn [List.length]; lia] ].
Qed.

Lemma decode_utf8_scalar (m : ErrorsMode) (bs : bytes) (s : pystr) :
  decode_utf8 m bs = Some s -> Forall is_scalar_value s.
Proof. now apply (decode_utf8_scalar_bounded m (List.length bs)). Qed.

(** X12: whatever bytes the child writes, every character of the
    [stdout] and of the [stderr] of every result is a Unicode scalar
    value: at most U+10FFFF and not a surrogate.  No overlong, truncated
    or out-of-range sequence gets through the decoder as a character. *)
Theorem X12_text_is_scalar_values
        (h : Host) (cfg : Config) (w : World) (r : LaunchRequest) (p : Child)
        (res : Dict) :
  Popen w (args r) (popen_kw h cfg r) = PopenOk p ->
  snd (run h cfg w r) = Returned res ->
  exists out err,
    dict_get "stdout" res = Some (VStr out)
    /\ dict_get "stderr" res = Some (VStr err)
    /\ Forall is_scalar_value out
    /\ Forall is_scalar_value err.
Proof.
  intros Hp Hres.
  destruct (run_returned_fields h cfg w r p res Hp Hres)
    as (code & out & err & util & _ & Hout & Herr & ->).
  exists out, err.
  repeat split; try reflexivity; eapply decode_utf8_scalar; eassumption.
Qed.

(** A child that writes the bytes ED A0 80, which would spell the
    surrogate U+D800, between an [a] and a [b]. *)
Lemma X12_text_is_scalar_values_witness :
  exists res out,
    snd (run Scenario.posix_host Scenario.sandbox
             (Scenario.world (Scenario.child [x61; xed; xa0; x80; x62] 0 0))
             (Scenario.request Scenario.echo_hello 5 2048))
    = Returned res
    /\ dict_get "stdout" res = Some (VStr out)
    /\ Forall is_scalar_value out.
Proof.
  eassert (E : snd (run Scenario.posix_host Scenario.sandbox
                        (Scenario.world
                           (Scenario.child [x61; xed; xa0; x80; x62] 0 0))
                        (Scenario.request Scenario.echo_hello 5 2048))
               = Returned _) by (vm_compute; reflexivity).
  destruct (X12_text_is_scalar_values
              Scenario.posix_host Scenario.sandbox
              (Scenario.world (Scenario.child [x61; xed; xa0; x80; x62] 0 0))
              (Scenario.request Scenario.echo_hello 5 2048)
              (Scenario.child [x61; xed; xa0; x80; x62] 0 0) _ eq_refl E)
    as (out & err & Hout & _ & Hscalar & _).
  eexists. exists out. split; [exact E|]. now split.
Defined.

(** * Beyond the claims: set_nonblocking *)

(** X13: [set_nonblocking] hands [F_SETFL] the flags it got from
    [F_GETFL] with the bits of [O_NONBLOCK] set and every other bit as it
    was, so it clears no flag and doing it twice is doing it once;
    without the [fcntl] module it changes nothing. *)
Theorem X13_set_nonblocking_adds_one_flag (fcntl : bool) (O_NONBLOCK fl : Z) :
  (forall n,
      Z.testbit (set_nonblocking fcntl O_NONBLOCK fl) n
      = Z.testbit fl n || (fcntl && Z.testbit O_NONBLOCK n))
  /\ set_nonblocking fcntl O_NONBLOCK (set_nonblocking fcntl O_NONBLOCK fl)
     = set_nonblocking fcntl O_NONBLOCK fl
  /\ (fcntl = true ->
      Z.land (set_nonblocking fcntl O_NONBLOCK fl) O_NONBLOCK = O_NONBLOCK)
  /\ (fcntl = false -> set_nonblocking fcntl O_NONBLOCK fl = fl).
Proof.
  unfold set_nonblocking. destruct fcntl; cbn [andb].
  - split; [intros n; apply Z.lor_spec|].
    split; [now rewrite <- Z.lor_assoc, Z.lor_diag|].
    split; [|discriminate].
    intros _. apply Z.bits_inj'. intros n _.
    rewrite Z.land_spec, Z.lor_spec.
    destruct (Z.testbit fl n), (Z.testbit O_NONBLOCK n); reflexivity.
  - split; [intros n; now rewrite orb_false_r|].
    split; [reflexivity|]. split; [discriminate | reflexivity].
Qed.

(** A read-write descriptor (flags 2) where [O_NONBLOCK] is 2048. *)
Lemma X13_set_nonblocking_adds_one_flag_witness :
  Z.land (set_nonblocking true 2048 2) 2048 = 2048
  /\ set_nonblocking false 2048 2 = 2.
Proof.
  split.
  - exact (proj1 (proj2 (proj2 (X13_set_nonblocking_adds_one_flag true 2048 2)))
                 eq_refl).
  - exact (proj2 (proj2 (proj2 (X13_set_nonblocking_adds_one_flag false 2048 2)))
                 eq_refl).
Defined.

(** * Beyond the claims: run_eval *)

Lemma replace_head (a : Z) (t : pystr) :
  exists rest,
    RunEval.replace_escaped_newlines (a :: t) = a :: rest
    \/ RunEval.replace_escaped_newlines (a :: t) = RunEval.NEWLINE :: rest.
Proof.
  destruct t as [|b r]; cbn [RunEval.replace_escaped_newlines].
  - exists []. now left.
  - destruct ((a =? RunEval.BACKSLASH) && (b =? RunEval.LETTER_N));
      eexists; [right | left]; reflexivity.
Qed.

Lemma has_escaped_cons (a : Z) (t : pystr) :
  RunEval.has_escaped_newline (a :: t)
  = match t with
    | [] => false
    | b :: _ => ((a =? RunEval.BACKSLASH) && (b =? RunEval.LETTER_N))
                || RunEval.has_escaped_newline t
    end.
Proof. reflexivity. Qed.

Lemma replace_cons (a b : Z) (r : pystr) :
  RunEval.replace_escaped_newlines (a :: b :: r)
  = if (a =? RunEval.BACKSLASH) && (b =? RunEval.LETTER_N)
    then RunEval.NEWLINE :: RunEval.replace_escaped_newlines r
    else a :: RunEval.replace_escaped_newlines (b :: r).
Proof. reflexivity. Qed.

(** After the replacement no escaped newline is left. *)
Lemma replace_leaves_none (n : nat) :
  forall s : pystr,
    (List.length s <= n)%nat ->
    RunEval.has_escaped_newline (RunEval.replace_escaped_newlines s) = false.
Proof.
  induction n as [|n IH]; intros s Hlen.
  - destruct s; [reflexivity | simpl in Hlen; lia].
  - destruct s as [|a [|b r]]; [reflexivity | reflexivity |].
    cbn [List.length] in Hlen. rewrite replace_cons.
    destruct ((a =? RunEval.BACKSLASH) && (b =? RunEval.LETTER_N)) eqn:E.
    + rewrite has_escaped_cons.
      destruct (RunEval.replace_escaped_newlines r) as [|y rest] eqn:Er;
        [reflexivity|].
      rewrite <- Er, IH by lia. reflexivity.
    + rewrite has_escaped_cons.
      assert (Hrest : RunEval.has_escaped_newline
                        (RunEval.replace_escaped_newlines (b :: r)) = false)
        by (apply IH; cbn [List.length]; lia).
      destruct (replace_head b r) as [rest [Hr|Hr]]; rewrite Hr in *;
        rewrite Hrest, orb_false_r.
      * exact E.
      * unfold RunEval.NEWLINE, RunEval.LETTER_N. now rewrite andb_false_r.
Qed.

(** The replacement of an escaped newline puts a newline in. *)
Lemma replace_puts_newline (n : nat) :
  forall s : pystr,
    (List.length s <= n)%nat ->
    RunEval.has_escaped_newline s = true ->
    RunEval.has_newline (RunEval.replace_escaped_newlines s) = true.
Proof.
  induction n as [|n IH]; intros s Hlen H.
  - destruct s; [discriminate H | simpl in Hlen; lia].
  - destruct s as [|a [|b r]]; [discriminate H | discriminate H |].
    cbn [List.length] in Hlen. rewrite has_escaped_cons in H.
    rewrite replace_cons.
    destruct ((a =? RunEval.BACKSLASH) && (b =? RunEval.LETTER_N)) eqn:E.
    + reflexivity.
    + cbn [orb] in H. unfold RunEval.has_newline. cbn [existsb].
      fold (RunEval.has_newline (RunEval.replace_escaped_newlines (b :: r))).
      rewrite IH; [apply orb_true_r | cbn [List.length]; lia | exact H].
Qed.

(** X14: the repair of [main_code] is done once and for all: repairing
    what was repaired changes nothing.  Text with a newline in it is left
    as it is; text with escaped newlines and no newline comes out with
    newlines and without any escaped newline. *)
Theorem X14_normalize_main_code_idempotent (main_code : pystr) :
  RunEval.normalize_main_code (RunEval.normalize_main_code main_code)
  = RunEval.normalize_main_code main_code
  /\ (RunEval.has_newline main_code = true ->
      RunEval.normalize_main_code main_code = main_code)
  /\ (RunEval.has_escaped_newline main_code = true ->
      RunEval.has_newline main_code = false ->
      RunEval.has_escaped_newline (RunEval.normalize_main_code main_code)
      = false
      /\ RunEval.has_newline (RunEval.normalize_main_code main_code) = true).
Proof.
  assert (Hkeep : RunEval.has_newline main_code = true ->
                  RunEval.normalize_main_code main_code = main_code).
  { intros H. unfold RunEval.normalize_main_code.
    now rewrite H, andb_false_r. }
  assert (Hfix : RunEval.has_escaped_newline main_code = true ->
                 RunEval.has_newline main_code = false ->
                 RunEval.has_escaped_newline
                   (RunEval.normalize_main_code main_code) = false
                 /\ RunEval.has_newline
                      (RunEval.normalize_main_code main_code) = true).
  { intros He Hn. unfold RunEval.normalize_main_code. rewrite He, Hn.
    cbn [andb negb]. split.
    - now apply (replace_leaves_none (List.length main_code)).
    - now apply (replace_puts_newline (List.length main_code)). }
  split; [|split; assumption].
  destruct (RunEval.has_escaped_newline main_code) eqn:He.
  - destruct (RunEval.has_newline main_code) eqn:Hn.
    + now rewrite !Hkeep.
    + destruct (Hfix eq_refl eq_refl) as [He' _].
      unfold RunEval.normalize_main_code at 1. now rewrite He'.
  - unfold RunEval.normalize_main_code. rewrite He. cbn [andb]. now rewrite He.
Qed.

(** [a\nb] with the newline escaped. *)
Lemma X14_normalize_main_code_idempotent_witness :
  RunEval.normalize_main_code [97; 92; 110; 98] = [97; 10; 98]
  /\ RunEval.has_escaped_newline (RunEval.normalize_main_code [97; 92; 110; 98])
     = false.
Proof.
  split; [reflexivity|].
  exact (proj1 (proj2 (proj2 (X14_normalize_main_code_idempotent
                                [97; 92; 110; 98])) eq_refl eq_refl)).
Defined.

(** X15: the cut of [output]: a text of more than 8000 characters keeps
    its first 8000 and gets the 16 characters of the notice, so the
    result never has more than 8016; a text of 8000 or less, and anything
    that is not a text, is left as it is; and cutting what was cut changes
    nothing. *)
Theorem X15_truncate_output_bounded {A : Type} (output : RunEval.Output A) :
  RunEval.truncate_output (RunEval.truncate_output output)
  = RunEval.truncate_output output
  /\ (forall s,
         output = RunEval.OutStr s ->
         exists t,
           RunEval.truncate_output output = RunEval.OutStr t
           /\ Z.of_nat (List.length t) <= 8000 + 16
           /\ firstn (Z.to_nat 8000) t = firstn (Z.to_nat 8000) s
           /\ (Z.of_nat (List.length s) <= 8000 -> t = s))
  /\ (forall x,
         output = RunEval.OutOther x ->
         RunEval.truncate_output output = output).
Proof.
  set (limit := Z.to_nat 8000).
  assert (Hlimit : Z.of_nat limit = 8000) by (subst limit; lia).
  assert (Hnotice : List.length RunEval.TRUNCATED = 16%nat) by reflexivity.
  assert (Hcut : forall s,
             8000 < Z.of_nat (List.length s) ->
             List.length (firstn limit s) = limit
             /\ firstn limit (firstn limit s ++ RunEval.TRUNCATED)
                = firstn limit s).
  { intros s Hs.
    assert (Hl : List.length (firstn limit s) = limit)
      by (rewrite length_firstn; lia).
    split; [exact Hl|].
    rewrite firstn_app, Hl, Nat.sub_diag, firstn_firstn, Nat.min_id.
    cbn [firstn]. apply app_nil_r. }
  split; [|split].
  - destruct output as [s|x]; [|reflexivity].
    cbn [RunEval.truncate_output]. fold limit.
    destruct (Z.ltb_spec 8000 (Z.of_nat (List.length s))) as [Hs|Hs].
    + destruct (Hcut s Hs) as [Hl Hf].
      cbn [RunEval.truncate_output]. fold limit.
      rewrite length_app, Hl, Hnotice.
      replace (8000 <? Z.of_nat (limit + 16)) with true
        by (symmetry; apply Z.ltb_lt; lia).
      now rewrite Hf.
    + cbn [RunEval.truncate_output].
      replace (8000 <? Z.of_nat (List.length s)) with false
        by (symmetry; apply Z.ltb_ge; lia).
      reflexivity.
  - intros s ->. cbn [RunEval.truncate_output]. fold limit.
    destruct (Z.ltb_spec 8000 (Z.of_nat (List.length s))) as [Hs|Hs].
    + destruct (Hcut s Hs) as [Hl Hf].
      eexists. split; [reflexivity|].
      rewrite length_app, Hl, Hnotice. repeat split; [lia | exact Hf | lia].
    + exists s. repeat split; trivial; lia.
  - now intros x ->.
Qed.

(** A text of 9000 characters. *)
Lemma X15_truncate_output_bounded_witness :
  exists t,
    RunEval.truncate_output
      (RunEval.OutStr (repeat 97 (Z.to_nat 9000)) : RunEval.Output unit)
    = RunEval.OutStr t
    /\ Z.of_nat (List.length t) <= 8000 + 16.
Proof.
  destruct (proj1 (proj2 (X15_truncate_output_bounded
                            (RunEval.OutStr (repeat 97 (Z.to_nat 9000))
                             : RunEval.Output unit)))
                  (repeat 97 (Z.to_nat 9000)) eq_refl)
    as (t & Ht & Hlen & _).
  now exists t.
Defined.

(** * Beyond the claims: setup_logger *)

Lemma handlers_addHandler_same (name : string) (hd : Log.Handler)
      (st : Log.LogState) :
  Log.handlers (Log.addHandler name hd st) name = Log.handlers st name ++ [hd].
Proof. cbn. now rewrite String.eqb_refl. Qed.

Lemma handlers_addHandler_other (name n : string) (hd : Log.Handler)
      (st : Log.LogState) :
  n <> name ->
  Log.handlers (Log.addHandler name hd st) n = Log.handlers st n.
Proof.
  intros H. cbn. apply String.eqb_neq in H. now rewrite H.
Qed.

(** What a call that returns leaves at the logger it was asked for, and
    at the others. *)
Lemma setup_logger_returned (fs : Log.FileSystem) (module_dir name : string)
      (file_name : option string) (st st' : Log.LogState) :
  Log.setup_logger fs module_dir name file_name st = Log.LogReturned st' ->
  (Log.handlers st name <> [] /\ st' = st
   \/ Log.handlers st name = []
      /\ exists f, Log.handlers st' name = [Log.FileHandler f; Log.StreamHandler])
  /\ forall n, n <> name -> Log.handlers st' n = Log.handlers st n.
Proof.
  unfold Log.setup_logger.
  destruct (Log.handlers st name) as [|hd hs] eqn:Hh.
  - destruct (Log.makedirs_ok fs (Log.LOG_DIR st)) eqn:Hm.
    + destruct (Log.open_ok fs _); [|discriminate].
      intros H. injection H as <-. split.
      * right. split; [reflexivity|]. eexists.
        rewrite !handlers_addHandler_same. cbn [Log.setLevel_INFO Log.handlers].
        rewrite Hh. reflexivity.
      * intros n Hn. now rewrite !handlers_addHandler_other.
    + destruct (Log.makedirs_ok fs module_dir); [|discriminate].
      destruct (Log.open_ok fs _); [|discriminate].
      intros H. injection H as <-. split.
      * right. split; [reflexivity|]. eexists.
        rewrite !handlers_addHandler_same.
        cbn [Log.setLevel_INFO Log.set_LOG_DIR Log.handlers].
        rewrite Hh. reflexivity.
      * intros n Hn. now rewrite !handlers_addHandler_other.
  - intros H. injection H as <-. split; [|reflexivity].
    left. split; [discriminate | reflexivity].
Qed.

(** X16: once [setup_logger] has returned for a name, every later call
    for that name, with whatever file name, returns at once and changes
    nothing: no handler is added a second time, and the log file stays the
    one of the first call. *)
Theorem X16_setup_logger_once
        (fs : Log.FileSystem) (module_dir name : string)
        (file_name file_name' : option string) (st st' : Log.LogState) :
  Log.setup_logger fs module_dir name file_name st = Log.LogReturned st' ->
  Log.handlers st' name <> []
  /\ Log.setup_logger fs module_dir name file_name' st' = Log.LogReturned st'.
Proof.
  intros H.
  assert (Hh : Log.handlers st' name <> []).
  { destruct (setup_logger_returned fs module_dir name file_name st st' H)
      as [[[Hne ->]|[_ [f Hf]]] _]; [exact Hne|].
    rewrite Hf. discriminate. }
  split; [exact Hh|].
  unfold Log.setup_logger.
  destruct (Log.handlers st' name); [contradiction | reflexivity].
Qed.

(** A file system on which everything works, and the registry at the
    start, with no logger set up. *)
Lemma X16_setup_logger_once_witness :
  let fs := {| Log.makedirs_ok := fun _ => true;
               Log.open_ok := fun _ => true;
               Log.path_join := fun d f => (d ++ "/" ++ f)%string |} in
  let st := {| Log.LOG_DIR := "/data/logs";
               Log.handlers := fun _ => [];
               Log.level_is_INFO := fun _ => false |} in
  let st' := Log.final_state
               (Log.setup_logger fs "/srv/data" "sandbox" None st) in
  Log.handlers st' "sandbox"
  = [Log.FileHandler "/data/logs/sandbox.log"; Log.StreamHandler]
  /\ Log.setup_logger fs "/srv/data" "sandbox" (Some "other.log"%string) st'
     = Log.LogReturned st'.
Proof.
  intros fs st st'. split; [reflexivity|].
  exact (proj2 (X16_setup_logger_once fs "/srv/data" "sandbox" None
                  (Some "other.log"%string) st st' eq_refl)).
Defined.

(** X17: [setup_logger] leaves no logger half set up: a call that raises
    has added no handler anywhere, and whether it raises or returns,
    if every logger had no handler or the pair of a file handler and a
    stream handler before the call, so it is after it. *)
Theorem X17_setup_logger_all_or_nothing
        (fs : Log.FileSystem) (module_dir name : string)
        (file_name : option string) (st : Log.LogState) :
  (forall st',
      Log.setup_logger fs module_dir name file_name st = Log.LogRaised st' ->
      forall n, Log.handlers st' n = Log.handlers st n)
  /\ (Log.well_set_up st ->
      Log.well_set_up
        (Log.final_state (Log.setup_logger fs module_dir name file_name st))).
Proof.
  assert (Hraised : forall st',
             Log.setup_logger fs module_dir name file_name st
             = Log.LogRaised st' ->
             forall n, Log.handlers st' n = Log.handlers st n).
  { unfold Log.setup_logger. intros st'.
    destruct (Log.handlers st name); [|discriminate].
    destruct (Log.makedirs_ok fs (Log.LOG_DIR st)).
    - destruct (Log.open_ok fs _); [discriminate|].
      intros H. injection H as <-. reflexivity.
    - destruct (Log.makedirs_ok fs module_dir).
      + destruct (Log.open_ok fs _); [discriminate|].
        intros H. injection H as <-. reflexivity.
      + intros H. injection H as <-. reflexivity. }
  split; [exact Hraised|].
  intros Hwell.
  destruct (Log.setup_logger fs module_dir name file_name st) as [st'|st'] eqn:E;
    cbn [Log.final_state]; intros n.
  - rewrite (Hraised st' eq_refl n). apply Hwell.
  - destruct (setup_logger_returned fs module_dir name file_name st st' E)
      as [Hname Hother].
    destruct (String.eqb_spec n name) as [->|Hn].
    + destruct Hname as [[_ ->]|[_ Hf]]; [apply Hwell | now right].
    + rewrite (Hother n Hn). apply Hwell.
Qed.

(** A file system on which no log file can be opened. *)
Lemma X17_setup_logger_all_or_nothing_witness :
  let fs := {| Log.makedirs_ok := fun _ => true;
               Log.open_ok := fun _ => false;
               Log.path_join := fun d f => (d ++ "/" ++ f)%string |} in
  let st := {| Log.LOG_DIR := "/data/logs";
               Log.handlers := fun _ => [];
               Log.level_is_INFO := fun _ => false |} in
  Log.handlers
    (Log.final_state (Log.setup_logger fs "/srv/data" "sandbox" None st))
    "sandbox"
  = [].
Proof.
  intros fs st.
  exact (proj1 (X17_setup_logger_all_or_nothing fs "/srv/data" "sandbox" None st)
               _ eq_refl "sandbox"%string).
Defined.

(** * Beyond the claims: the kill under a sandbox identity *)

(** X18: with a sandbox identity configured, on a host where process
    groups can be asked for, the child is launched as that user and group
    in a session of its own, and the one kill of the call goes to the
    group named after the child; that is not the group of the caller
    unless the child's pid is the caller's group id. *)
Theorem X18_sandboxed_kill_stays_with_child
        (h : Host) (cfg : Config) (w : World) (r : LaunchRequest) (p : Child)
        (uid : Z) :
  SANDBOX_UID cfg = Some uid ->
  has_getpgid h = true ->
  Popen w (args r) (popen_kw h cfg r) = PopenOk p ->
  kw_user (popen_kw h cfg r) = Some uid
  /\ kw_group (popen_kw h cfg r) = SANDBOX_GID cfg
  /\ kw_start_new_session (popen_kw h cfg r) = true
  /\ (exists before, fst (run h cfg w r) = before ++ [AKillpg (pid p)])
  /\ (pid p <> caller_pgid w ->
      ~ In (AKillpg (caller_pgid w)) (fst (run h cfg w r))).
Proof.
  intros Huid Hpg Hp.
  destruct (sandboxed_child_is_killed_by_group h cfg w r p uid Huid Hpg)
    as [Hsess Hreap].
  assert (Hkw : kw_user (popen_kw h cfg r) = Some uid
                /\ kw_group (popen_kw h cfg r) = SANDBOX_GID cfg)
    by (unfold popen_kw; rewrite Huid; split; reflexivity).
  destruct Hkw as [Hu Hg].
  destruct (launch_then_observe_then_kill h cfg w r p Hp)
    as (between & Htrace & Hobs).
  rewrite Hreap in Htrace.
  repeat split; try assumption.
  - eexists. rewrite Htrace. rewrite app_comm_cons. reflexivity.
  - intros Hne Hin. rewrite Htrace in Hin.
    destruct Hin as [Hin|Hin]; [discriminate Hin|].
    apply in_app_or in Hin. destruct Hin as [Hin|[Hin|[]]].
    + rewrite forallb_forall in Hobs. specialize (Hobs _ Hin).
      discriminate Hobs.
    + injection Hin as Hin. now apply Hne.
Qed.

(** The sandboxed call of the scenarios: child 4242, caller in group 777. *)
Lemma X18_sandboxed_kill_stays_with_child_witness :
  ~ In (AKillpg 777)
       (fst (run Scenario.posix_host Scenario.sandbox
                 (Scenario.world (Scenario.child Scenario.hello 0 0))
                 (Scenario.request Scenario.echo_hello 5 2048))).
Proof.
  apply (proj2 (proj2 (proj2 (proj2
           (X18_sandboxed_kill_stays_with_child
              Scenario.posix_host Scenario.sandbox
              (Scenario.world (Scenario.child Scenario.hello 0 0))
              (Scenario.request Scenario.echo_hello 5 2048)
              (Scenario.child Scenario.hello 0 0) 1000
              eq_refl eq_refl eq_refl))))).
  cbn. lia.
Defined.
